(** * mak/transplacer.go: the asset cache, embedded and verified

    A shallow embedding of [transplacer.go] (package [mak]): the [AssetCache]
    with its methods [Handler], [Gen], [Get], [Del], [Close] and
    [SetInterval], the eviction loop started by [MakeAssetCache], and
    [Asset.Serve]; then what holds of them.

    Conventions.
    - A Go [string] is a Rocq [string] (a sequence of 8-bit characters), a
      [[]byte] is a [list byte]; the nil slice and the empty slice are both
      [[]], as every operation used here ([len], [Write], [%x]) treats them
      alike.
    - [time.Time] and [time.Duration] are integers ([Z]): nanoseconds since
      the Unix epoch, and nanoseconds.
    - The [*HashMap] of [cornelk/hashmap] is a [gmap string Asset]; methods
      on [*AssetCache] take the record and give back the updated one.
    - What the operating system answers ([os.Stat], [os.Open],
      [ioutil.ReadFile], reading an open file, [os.Getwd], [time.Now]) is a
      [World]; nothing in this file writes to it.
    - Of the standard library, [path], [filepath], [strings], [fmt],
      [crypto/sha256] and [http.TimeFormat] are computed; [compress/gzip]
      is an interface, since its bytes depend on the release.
    - A Go panic is the [Panics] result. The recursion of [Gen] is bounded
      by a fuel argument, [None] meaning the bound was reached;
      [Gen_returns] has a bound that is enough. Each call is taken as one
      step: goroutines are not interleaved. *)

From Stdlib Require Import ZArith Lia Bool List Ascii String.
From Stdlib.Strings Require Import Byte.
From stdpp Require Import gmap strings list fin_maps.

Local Open Scope string_scope.
Local Open Scope Z_scope.

(* ===================================================================== *)
(** ** Go's standard library, as far as [transplacer.go] uses it          *)
(* ===================================================================== *)

Definition bytes := list byte.

Definition error := string.

(** [(T, error)] results: [inl err] when [err != nil]. *)
Definition Res (T : Type) : Type := error + T.

(** What a call does when it comes back at all. *)
Inductive Outcome (T : Type) : Type :=
| Returns (v : T)
| Panics (msg : string).
Arguments Returns {T} v.
Arguments Panics {T} msg.

Definition slash : ascii := "/"%char.
Definition dot : ascii := "."%char.
Definition quote : ascii := ascii_of_nat 34.

Definition is_slash (c : ascii) : bool := Ascii.eqb c slash.
Definition is_dot (c : ascii) : bool := Ascii.eqb c dot.

Module strings.

(** [strings.ToLower] on the ASCII range. *)
Definition lower_char (c : ascii) : ascii :=
  let n := nat_of_ascii c in
  if (65 <=? n)%nat && (n <=? 90)%nat then ascii_of_nat (n + 32) else c.

Fixpoint ToLower (s : string) : string :=
  match s with
  | EmptyString => EmptyString
  | String c s' => String (lower_char c) (ToLower s')
  end.

(** [strings.HasPrefix s prefix]. *)
Definition HasPrefix (s pre : string) : bool := String.prefix pre s.

(** [strings.Contains s substr]: [substr] occurs somewhere in [s]. *)
Fixpoint Contains (s substr : string) : bool :=
  HasPrefix s substr ||
  match s with
  | EmptyString => false
  | String _ s' => Contains s' substr
  end.

(** [strings.Join elems sep]. *)
Definition Join (elems : list string) (sep : string) : string :=
  String.concat sep elems.

End strings.

Module path.

(** The path elements between slashes: [n] slashes give [n + 1] elements,
    empty ones included. *)
Fixpoint elements (p : string) : list string :=
  match p with
  | EmptyString => [EmptyString]
  | String c p' =>
      if is_slash c then EmptyString :: elements p'
      else match elements p' with
           | e :: es => String c e :: es
           | [] => [String c EmptyString]
           end
  end.

(** One turn of the loop of [path.Clean], on a whole element. [out] is the
    output buffer as a stack of elements, last one first. The cases are the
    loop's: an empty element, a [.] element, a [..] element (backtrack when
    there is an element to drop, [out.w > dotdot]; else keep the [..] on a
    path that is not rooted), a real element. *)
Definition clean_element (rooted : bool) (out : list string) (e : string) : list string :=
  if String.eqb e "" then out
  else if String.eqb e "." then out
  else if String.eqb e ".." then
    match out with
    | top :: below =>
        if String.eqb top ".." then (if rooted then out else e :: out)
        else below
    | [] => if rooted then out else [e]
    end
  else e :: out.

Definition rooted (p : string) : bool :=
  match p with
  | String c _ => is_slash c
  | EmptyString => false
  end.

(** [path.Clean]: the shortest path name equivalent to [p] by purely
    lexical processing. *)
Definition Clean (p : string) : string :=
  match p with
  | EmptyString => "."
  | _ =>
      let out := fold_left (clean_element (rooted p)) (elements p) [] in
      let body := strings.Join (rev out) "/" in
      if rooted p then String slash body
      else if String.eqb body "" then "." else body
  end.

End path.

Module filepath.

(** The backward scan of [filepath.Ext]: [before] is the part of the path
    not yet looked at, last character first; [suffix] what was passed. *)
Fixpoint ext_scan (before : list ascii) (suffix : string) : string :=
  match before with
  | [] => ""
  | c :: before' =>
      if is_slash c then ""
      else if is_dot c then String c suffix
      else ext_scan before' (String c suffix)
  end.

(** [filepath.Ext]: the suffix beginning at the final dot in the final
    element of the path; empty if there is no dot. *)
Definition Ext (p : string) : string :=
  ext_scan (rev (list_ascii_of_string p)) "".

(** [filepath.IsAbs] on Unix. *)
Definition IsAbs (p : string) : bool := path.rooted p.

(** [filepath.Join] of two elements on Unix: the elements from the first
    one that is not empty, joined by slashes and cleaned. *)
Definition Join (a b : string) : string :=
  if String.eqb a "" then (if String.eqb b "" then "" else path.Clean b)
  else path.Clean (strings.Join [a; b] "/").

End filepath.

Module sha256.

(** [uint32] arithmetic: values are kept in [0, 2^32). *)
Definition w32 (x : Z) : Z := x mod 2 ^ 32.

Definition add32 (x y : Z) : Z := w32 (x + y).

Definition not32 (x : Z) : Z := Z.lxor x 0xffffffff.

Definition rotr (x n : Z) : Z :=
  Z.lor (Z.shiftr x n) (w32 (Z.shiftl x (32 - n))).

Definition Ch (x y z : Z) : Z := Z.lxor (Z.land x y) (Z.land (not32 x) z).
Definition Maj (x y z : Z) : Z :=
  Z.lxor (Z.lxor (Z.land x y) (Z.land x z)) (Z.land y z).
Definition bsig0 (x : Z) : Z := Z.lxor (Z.lxor (rotr x 2) (rotr x 13)) (rotr x 22).
Definition bsig1 (x : Z) : Z := Z.lxor (Z.lxor (rotr x 6) (rotr x 11)) (rotr x 25).
Definition ssig0 (x : Z) : Z := Z.lxor (Z.lxor (rotr x 7) (rotr x 18)) (Z.shiftr x 3).
Definition ssig1 (x : Z) : Z := Z.lxor (Z.lxor (rotr x 17) (rotr x 19)) (Z.shiftr x 10).

(** The constants are the first 32 bits of the fractional parts of the
    cube roots (for [K]) and of the square roots (for [init]) of the first
    primes. *)
Definition primes : list Z :=
  [2; 3; 5; 7; 11; 13; 17; 19; 23; 29; 31; 37; 41; 43; 47; 53; 59; 61; 67; 71; 73; 79;
   83; 89; 97; 101; 103; 107; 109; 113; 127; 131; 137; 139; 149; 151; 157; 163; 167;
   173; 179; 181; 191; 193; 197; 199; 211; 223; 227; 229; 233; 239; 241; 251; 257; 263;
   269; 271; 277; 281; 283; 293; 307; 311].

(** The largest [r] below [2 ^ bits] with [r ^ 3 <= n], bit by bit from
    the top. *)
Fixpoint cube_root (bits : nat) (n r : Z) : Z :=
  match bits with
  | O => r
  | S bits' =>
      let r' := r + 2 ^ Z.of_nat bits' in
      if r' * r' * r' <=? n then cube_root bits' n r' else cube_root bits' n r
  end.

Definition K : list Z :=
  Eval vm_compute in map (fun p => w32 (cube_root 36 (p * 2 ^ 96) 0)) primes.

Definition init : list Z :=
  Eval vm_compute in map (fun p => w32 (Z.sqrt (p * 2 ^ 64))) (firstn 8 primes).

Definition Z_of_byte (b : byte) : Z := Z.of_N (Byte.to_N b).

Definition byte_of_Z (z : Z) : byte :=
  match Byte.of_N (Z.to_N (z mod 256)) with
  | Some b => b
  | None => x00
  end.

(** Big-endian 32-bit words of a byte sequence. *)
Fixpoint be_words (bs : list Z) : list Z :=
  match bs with
  | b0 :: b1 :: b2 :: b3 :: rest =>
      (Z.shiftl b0 24 + Z.shiftl b1 16 + Z.shiftl b2 8 + b3) :: be_words rest
  | _ => []
  end.

Definition be_bytes (width : nat) (x : Z) : list Z :=
  map (fun i => Z.shiftr x (8 * Z.of_nat i) mod 256) (rev (seq 0 width)).

(** The message, a 1 bit, zeros up to 56 modulo 64, the length in bits. *)
Definition pad (msg : list Z) : list Z :=
  let len := Z.of_nat (length msg) in
  (msg ++ [0x80] ++ repeat 0 (Z.to_nat ((55 - len) mod 64)) ++ be_bytes 8 (8 * len))%list.

Fixpoint chunks (n : nat) (bs : list Z) : list (list Z) :=
  match n with
  | O => []
  | S n' => firstn 64 bs :: chunks n' (skipn 64 bs)
  end.

(** The message schedule: [window] holds the last sixteen words. *)
Fixpoint schedule (n : nat) (window : list Z) : list Z :=
  match n with
  | O => []
  | S n' =>
      let w :=
        add32 (add32 (ssig1 (nth 14 window 0)) (nth 9 window 0))
              (add32 (ssig0 (nth 1 window 0)) (nth 0 window 0)) in
      w :: schedule n' (tl window ++ [w])%list
  end.

Definition round (st : list Z) (kw : Z * Z) : list Z :=
  match st with
  | [a; b; c; d; e; f; g; h] =>
      let t1 := add32 (add32 (add32 h (bsig1 e)) (add32 (Ch e f g) (fst kw))) (snd kw) in
      let t2 := add32 (bsig0 a) (Maj a b c) in
      [add32 t1 t2; a; b; c; add32 d t1; e; f; g]
  | _ => st
  end.

Definition block (h : list Z) (chunk : list Z) : list Z :=
  let w16 := be_words chunk in
  let w := (w16 ++ schedule 48 w16)%list in
  let st := fold_left round (combine K w) h in
  map (fun p => add32 (fst p) (snd p)) (combine h st).

(** [sha256.Sum256], and so [h.Sum(nil)] of a [sha256.New()] that was fed
    the whole of [msg]. *)
Definition Sum (msg : bytes) : bytes :=
  let padded := pad (map Z_of_byte msg) in
  let h := fold_left block (chunks (length padded / 64) padded) init in
  map byte_of_Z (concat (map (be_bytes 4) h)).

End sha256.

Module fmt.

Definition hex_digit (n : Z) : ascii :=
  if n <? 10 then ascii_of_N (Z.to_N (48 + n)) else ascii_of_N (Z.to_N (87 + n)).

(** The verb [%x] on a byte slice: two lower-case digits a byte. *)
Fixpoint hex (bs : bytes) : string :=
  match bs with
  | [] => ""
  | b :: bs' =>
      let n := sha256.Z_of_byte b in
      String (hex_digit (n / 16)) (String (hex_digit (n mod 16)) (hex bs'))
  end.

(** [fmt.Sprintf] with the format of a double quote, [%x], a double quote. *)
Definition Sprintf_quoted_hex (et : bytes) : string :=
  String quote (hex et ++ String quote "").

Definition digit (n : Z) : ascii := ascii_of_N (Z.to_N (48 + n mod 10)).

Definition pad2 (n : Z) : string :=
  String (digit (n / 10)) (String (digit n) "").

(** The decimal digits of a number that is not negative, the most
    significant first, put before [acc]. *)
Fixpoint decimal (fuel : nat) (n : Z) (acc : string) : string :=
  match fuel with
  | O => acc
  | S fuel' =>
      let acc := String (digit n) acc in
      if n <? 10 then acc else decimal fuel' (n / 10) acc
  end.

Fixpoint zeros (n : nat) (s : string) : string :=
  match n with
  | O => s
  | S n' => String "0" (zeros n' s)
  end.

(** [appendInt(b, x, width)] of package [time], which prints the year: a
    minus sign for a negative number, then its absolute value in decimal,
    with zeros before it up to [width] digits. A number has at most one
    more decimal digit than its binary logarithm. *)
Definition appendInt (x : Z) (width : nat) : string :=
  let u := Z.abs x in
  let digits := decimal (S (Z.to_nat (Z.log2 u))) u "" in
  (if x <? 0 then "-" else "") ++ zeros (width - String.length digits) digits.

End fmt.

(** The value of the first pair of [table] whose key is the [same] as
    [key]. *)
Fixpoint assoc (same : string -> string -> bool) (key : string)
    (table : list (string * string)) : option string :=
  match table with
  | [] => None
  | (k, v) :: table' => if same k key then Some v else assoc same key table'
  end.

Module mime.

(** The table [TypeByExtension] reads is process-wide state: it starts as
    the package's built-in table and grows by the system's mime.types files
    and by [AddExtensionType]; every [text/] type entered gets a charset
    parameter when it has none. A [World] holds the table in force.
    [builtinTypes] has the built-in entries that are the same in every
    release (the one for [.js] is not, and later releases add more). *)
Definition builtinTypes : list (string * string) :=
  [(".css", "text/css; charset=utf-8");
   (".gif", "image/gif");
   (".htm", "text/html; charset=utf-8");
   (".html", "text/html; charset=utf-8");
   (".jpg", "image/jpeg");
   (".pdf", "application/pdf");
   (".png", "image/png");
   (".svg", "image/svg+xml");
   (".xml", "text/xml; charset=utf-8")].

(** [mime.TypeByExtension]: the case-sensitive lookup first, then the
    lookup among lower-cased extensions; the empty string when unknown. *)
Definition TypeByExtension (table : list (string * string)) (ext : string) : string :=
  match assoc String.eqb ext table with
  | Some t => t
  | None =>
      match assoc (fun e x => String.eqb (strings.ToLower e) x) (strings.ToLower ext) table with
      | Some t => t
      | None => ""
      end
  end.

End mime.

Module gzip.

Definition HuffmanOnly : Z := -2.
Definition BestCompression : Z := 9.

(** The bytes a [gzip.Writer] of a given level has put into its buffer
    after [Write(content)], [Flush()] and [Close()]. They depend on the
    release's deflate implementation, so the encoder is an interface; what
    every encoder does is start the member with the magic bytes and the
    deflate method (RFC 1952). *)
Class Encoder := {
  stream : Z -> bytes -> bytes;
  stream_header : forall level content,
    firstn 3 (stream level content) = [x1f; x8b; x08];
}.

(** The CRC-32 of RFC 1952 (polynomial [0xedb88320], bit by bit). *)
Definition crc_bit (c : Z) : Z :=
  if Z.testbit c 0 then Z.lxor (Z.shiftr c 1) 0xedb88320 else Z.shiftr c 1.

Definition crc_byte (c b : Z) : Z :=
  let c := Z.lxor c b in
  crc_bit (crc_bit (crc_bit (crc_bit (crc_bit (crc_bit (crc_bit (crc_bit c))))))).

Definition crc32 (content : list Z) : Z :=
  Z.lxor (fold_left crc_byte content 0xffffffff) 0xffffffff.

Definition le_bytes (width : nat) (x : Z) : list Z :=
  map (fun i => Z.shiftr x (8 * Z.of_nat i) mod 256) (seq 0 width).

(** Deflate with stored blocks only (RFC 1951, 3.2.4), the last one final. *)
Fixpoint stored_blocks (fuel : nat) (content : list Z) : list Z :=
  let n := Z.of_nat (length content) in
  match fuel with
  | S fuel' =>
      if 65535 <? n then
        ([0; 0xff; 0xff; 0; 0] ++ firstn (Z.to_nat 65535) content
           ++ stored_blocks fuel' (skipn (Z.to_nat 65535) content))%list
      else ([1] ++ le_bytes 2 n ++ le_bytes 2 (Z.lxor n 0xffff) ++ content)%list
  | O => [1; 0; 0; 0xff; 0xff]
  end.

(** An encoder to run examples with: a well-formed member that stores the
    content uncompressed. The header is the one [gzip.Writer] writes (no
    name, no time, the level's flag, unknown system). *)
Definition store_stream (level : Z) (content : bytes) : bytes :=
  let data := map sha256.Z_of_byte content in
  let xfl := if level =? BestCompression then 2 else if level =? 1 then 4 else 0 in
  ([x1f; x8b; x08] ++
   map sha256.byte_of_Z
     ([0; 0; 0; 0; 0; xfl; 0xff] ++ stored_blocks (length data) data
        ++ le_bytes 4 (crc32 data) ++ le_bytes 4 (Z.of_nat (length data))))%list.

Definition Store : Encoder :=
  {| stream := store_stream; stream_header := fun _ _ => eq_refl |}.

End gzip.

Module http.

Definition weekdays : list string := ["Sun"; "Mon"; "Tue"; "Wed"; "Thu"; "Fri"; "Sat"].
Definition months : list string :=
  ["Jan"; "Feb"; "Mar"; "Apr"; "May"; "Jun"; "Jul"; "Aug"; "Sep"; "Oct"; "Nov"; "Dec"].

(** Year, month and day of a day count since 1970-01-01 (proleptic
    Gregorian calendar). *)
Definition civil (days : Z) : Z * Z * Z :=
  let z := days + 719468 in
  let era := z / 146097 in
  let doe := z - era * 146097 in
  let yoe := (doe - doe / 1460 + doe / 36524 - doe / 146096) / 365 in
  let doy := doe - (365 * yoe + yoe / 4 - yoe / 100) in
  let mp := (5 * doy + 2) / 153 in
  let d := doy - (153 * mp + 2) / 5 + 1 in
  let m := if mp <? 10 then mp + 3 else mp - 9 in
  let y := yoe + era * 400 + (if m <=? 2 then 1 else 0) in
  (y, m, d).

(** [t.UTC().Format(http.TimeFormat)] for a time in nanoseconds since the
    epoch. The layout is [Mon, 02 Jan 2006 15:04:05 GMT]; the year is
    printed by [appendInt] with four digits at least, so that the year
    10000 takes five and the year before the year 0 reads [-0001]. *)
Definition TimeFormat (t : Z) : string :=
  let secs := t / 1000000000 in
  let days := secs / 86400 in
  let rem := secs mod 86400 in
  let '(y, m, d) := civil days in
  nth (Z.to_nat ((days + 4) mod 7)) weekdays "" ++ ", " ++
  fmt.pad2 d ++ " " ++ nth (Z.to_nat (m - 1)) months "" ++ " " ++ fmt.appendInt y 4 ++ " " ++
  fmt.pad2 (rem / 3600) ++ ":" ++ fmt.pad2 (rem mod 3600 / 60) ++ ":" ++ fmt.pad2 (rem mod 60) ++
  " GMT".

End http.

Definition bytes_of_string (s : string) : bytes := list_byte_of_string s.

Module time.

(** The zero [time.Time]: January 1, year 1, 00:00:00 UTC. *)
Definition zero : Z := -62135596800 * 1000000000.

Definition Add (t d : Z) : Z := t + d.

(** [t.After(u)]. *)
Definition After (t u : Z) : bool := u <? t.

(** A [*time.Ticker]: its period and whether [Stop] was called on it. *)
Record Ticker := { period : Z; stopped : bool }.

(** [time.NewTicker] panics on a period that is not positive. *)
Definition NewTicker (d : Z) : Outcome Ticker :=
  if d <=? 0 then Panics "non-positive interval for NewTicker"
  else Returns {| period := d; stopped := false |}.

Definition Stop (t : Ticker) : Ticker := {| period := period t; stopped := true |}.

End time.

Module os.

(** [os.FileInfo], as far as it is asked: [IsDir()] and [ModTime()]. *)
Record FileInfo := { IsDir : bool; ModTime : Z }.

(** An open [*os.File]: what reading it to the end gives. *)
Record File := { contents : Res bytes }.

End os.

(** What the process finds around it when it asks. *)
Record World := {
  Stat : string -> Res os.FileInfo;
  Open : string -> Res os.File;
  ReadFile : string -> Res bytes;
  Getwd : Res string;
  Now : Z;
  mimeTypes : list (string * string);
  (** the package variable [Compressable] as it stands; programs may append to it *)
  Compressable : list string;
}.

(** The initial value of the package variable [Compressable]. *)
Definition Compressable_init : list string :=
  [""; ".txt"; ".htm"; ".html"; ".css"; ".toml"; ".php"; ".js"; ".json"; ".md"; ".mdown";
   ".xml"; ".svg"; ".go"; ".cgi"; ".py"; ".pl"; ".aspx"; ".asp"].

(** [filepath.Abs]. *)
Definition filepath_Abs (w : World) (p : string) : Res string :=
  if filepath.IsAbs p then inr (path.Clean p)
  else match Getwd w with
       | inl err => inl err
       | inr wd => inr (filepath.Join wd p)
       end.

(** Modelled from the spec: [stringsContainsCI] is declared in another file
    of the package. The spec has the extension "(case-insensitive, including
    the empty extension) ... looked up in a fixed allow-list". *)
Definition stringsContainsCI (list : list string) (ext : string) : bool :=
  existsb (fun item => String.eqb (strings.ToLower item) (strings.ToLower ext)) list.

(* ===================================================================== *)
(** ** The asset and the cache                                            *)
(* ===================================================================== *)

Record Asset := {
  ContentType : string;
  Loaded : Z;
  ModTime : Z;
  Content : bytes;
  ContentCompressed : bytes;
  Etag : string;
  EtagCompressed : string;
  Compressed : bool;
}.

Record AssetCache := {
  Dir : string;
  Cache : gmap string Asset;
  Expire : Z;
  Interval : Z;
  CacheControl : string;
  Ticker : option time.Ticker;
}.

Definition set_Cache (a : AssetCache) (m : gmap string Asset) : AssetCache :=
  {| Dir := Dir a; Cache := m; Expire := Expire a; Interval := Interval a;
     CacheControl := CacheControl a; Ticker := Ticker a |}.

Definition set_Ticker (a : AssetCache) (t : option time.Ticker) : AssetCache :=
  {| Dir := Dir a; Cache := Cache a; Expire := Expire a; Interval := Interval a;
     CacheControl := CacheControl a; Ticker := t |}.

Definition set_Interval (a : AssetCache) (d : Z) : AssetCache :=
  {| Dir := Dir a; Cache := Cache a; Expire := Expire a; Interval := d;
     CacheControl := CacheControl a; Ticker := Ticker a |}.

(** [asset.EtagCompressed = ...; asset.ContentCompressed = compressed] *)
Definition set_compressed (asset : Asset) (etag : string) (compressed : bytes) : Asset :=
  {| ContentType := ContentType asset; Loaded := Loaded asset; ModTime := ModTime asset;
     Content := Content asset; ContentCompressed := compressed;
     Etag := Etag asset; EtagCompressed := etag; Compressed := Compressed asset |}.

(** [asset.Etag = ...] *)
Definition set_Etag (asset : Asset) (etag : string) : Asset :=
  {| ContentType := ContentType asset; Loaded := Loaded asset; ModTime := ModTime asset;
     Content := Content asset; ContentCompressed := ContentCompressed asset;
     Etag := etag; EtagCompressed := EtagCompressed asset; Compressed := Compressed asset |}.

(** [asset.Loaded = time.Now()] *)
Definition set_Loaded (asset : Asset) (t : Z) : Asset :=
  {| ContentType := ContentType asset; Loaded := t; ModTime := ModTime asset;
     Content := Content asset; ContentCompressed := ContentCompressed asset;
     Etag := Etag asset; EtagCompressed := EtagCompressed asset;
     Compressed := Compressed asset |}.

(** The message of the run-time panic of a type assertion to [*Asset] on a
    nil interface value. *)
Definition nil_assertion : string :=
  "interface conversion: interface {} is nil, not *mak.Asset".

(** [path.Clean(a.Dir + name)], the first statement of [Handler], [Gen],
    [Get] and [Del]. *)
Definition resolve (a : AssetCache) (name : string) : string :=
  path.Clean (Dir a ++ name).

Section Cache.

Context {encoder : gzip.Encoder}.

(** [gzipBytes]: [NewWriterLevel] refuses a level outside
    [HuffmanOnly .. BestCompression]; writing to, flushing and closing a
    writer over a [bytes.Buffer] gives no error. *)
Definition gzipBytes (content : bytes) (level : Z) : Res bytes :=
  if (level <? gzip.HuffmanOnly) || (gzip.BestCompression <? level)
  then inl "gzip: invalid compression level"
  else inr (gzip.stream level content).

(** [SetInterval]: stop the ticker in place, if any, and start a new one. *)
Definition SetInterval (a : AssetCache) (interval : Z) : Outcome AssetCache :=
  let a := set_Ticker a (time.Stop <$> Ticker a) in
  let a := set_Interval a interval in
  match time.NewTicker interval with
  | Panics msg => Panics msg
  | Returns t => Returns (set_Ticker a (Some t))
  end.

(** One tick of the loop that [MakeAssetCache] starts, the tick carrying
    the time [now]: every entry of the cache as iterated is looked at, and
    deleted from the cache when [Loaded.Add(Expire).After(now)]. *)
Definition sweep_entry (expire now : Z) (cache : gmap string Asset)
    (kv : string * Asset) : gmap string Asset :=
  if time.After (time.Add (Loaded (snd kv)) expire) now
  then delete (fst kv) cache
  else cache.

Definition sweep (a : AssetCache) (now : Z) : AssetCache :=
  set_Cache a (fold_left (sweep_entry (Expire a) now) (map_to_list (Cache a)) (Cache a)).

(** The loop over the ticks that arrive, in their order, while nothing else
    touches the cache. *)
Definition sweeps (a : AssetCache) (ticks : list Z) : AssetCache :=
  fold_left sweep ticks a.

(** [MakeAssetCache], up to the start of the loop above. *)
Definition MakeAssetCache (w : World) (dir : string) (expire interval : Z)
  : Outcome (Res AssetCache) :=
  match filepath_Abs w dir with
  | inl err => Returns (inl err)
  | inr dir =>
      let a := {| Dir := dir; Cache := ∅; Expire := expire; Interval := 0;
                  CacheControl := "private, must-revalidate"; Ticker := None |} in
      match SetInterval a interval with
      | Panics msg => Panics msg
      | Returns a => Returns (inr a)
      end
  end.

(** [Close]: a fresh map in place of the cache, the ticker stopped. *)
Definition Close (a : AssetCache) : AssetCache :=
  let a := set_Cache a ∅ in
  set_Ticker a (time.Stop <$> Ticker a).

(** The statements of [Gen] past the test for a directory: [name] is the
    resolved path and [fs] what [os.Stat] said of it. The result is the
    asset or the error returned, and the cache object as the call leaves
    it. *)
Definition Gen_file (w : World) (a : AssetCache) (name : string) (fs : os.FileInfo)
  : Res Asset * AssetCache :=
  match Open w name with
  | inl err => (inl err, a)
  | inr f =>
      match ReadFile w name with
      | inl err => (inl err, a)
      | inr content =>
          let ext := filepath.Ext name in
          let contentType := mime.TypeByExtension (mimeTypes w) ext in
          let compressed := stringsContainsCI (Compressable w) ext in
          let asset :=
            {| ContentType := contentType; Content := content;
               Compressed := compressed; ModTime := os.ModTime fs;
               Loaded := time.zero; ContentCompressed := [];
               Etag := ""; EtagCompressed := "" |} in
          let step :=
            if compressed then
              match gzipBytes content 9 with
              | inl err => inl err
              | inr gz =>
                  let et := sha256.Sum gz in
                  inr (set_compressed asset (fmt.Sprintf_quoted_hex et) gz)
              end
            else inr asset in
          match step with
          | inl err => (inl err, a)
          | inr asset =>
              match os.contents f with
              | inl err => (inl err, a)
              | inr read =>
                  let et := sha256.Sum read in
                  let asset := set_Etag asset (fmt.Sprintf_quoted_hex et) in
                  let asset := set_Loaded asset (Now w) in
                  (inr asset, set_Cache a (<[name := asset]> (Cache a)))
              end
          end
      end
  end.

(** [Gen]. The result is [None] when the chain of directories is longer
    than [fuel]. *)
Fixpoint Gen (fuel : nat) (w : World) (a : AssetCache) (name : string)
  : option (Res Asset * AssetCache) :=
  match fuel with
  | O => None
  | S fuel' =>
      let name := resolve a name in
      match Stat w name with
      | inl err => Some (inl err, a)
      | inr fs =>
          if os.IsDir fs then Gen fuel' w a (name ++ "/index.html")
          else Some (Gen_file w a name fs)
      end
  end.

(** [Get]. A type assertion on a nil interface value panics. *)
Definition Get (fuel : nat) (w : World) (a : AssetCache) (name : string)
  : option (Outcome (option Asset * bool) * AssetCache) :=
  let name := resolve a name in
  match Cache a !! name with
  | Some raw =>
      match Gen fuel w a name with
      | None => None
      | Some (inr asset, a') => Some (Returns (Some asset, true), a')
      | Some (inl err, a') => Some (Returns (None, false), a')
      end
  | None =>
      Some (Panics nil_assertion, a)
  end.

(** [Del]. *)
Definition Del (a : AssetCache) (name : string) : AssetCache :=
  let name := resolve a name in
  set_Cache a (delete name (Cache a)).

End Cache.

(* ===================================================================== *)
(** ** Serving                                                            *)
(* ===================================================================== *)

(** Modelled from the spec: the request context [Ctx] is declared in
    another file of the package. Of it the spec says that [serve] sets the
    response's content-type header, sets last-modified unless the caller
    has set it, consults the request's accept-encoding, writes a body to
    the response sink, folds the number of bytes written into the
    content-length accounting and propagates a write failure. The sink
    takes [room] more bytes ([None]: any number) and fails on the rest. *)
Record Ctx := {
  URLPath : string;
  request : list (string * string);
  response : list (string * string);
  body : bytes;
  ContentLength : Z;
  room : option nat;
  ErrorHandler : option (error -> option error);
}.

Definition field (headers : list (string * string)) (name : string) : string :=
  match assoc String.eqb name headers with
  | Some v => v
  | None => ""
  end.

(** [c.Header(name)]: a header of the request. *)
Definition Header (c : Ctx) (name : string) : string := field (request c) name.

(** [c.GetHeader(name)]: a header of the response. *)
Definition GetHeader (c : Ctx) (name : string) : string := field (response c) name.

Definition SetHeader (c : Ctx) (name value : string) : Ctx :=
  {| URLPath := URLPath c; request := request c;
     response := (name, value) :: filter (fun h => fst h <> name) (response c);
     body := body c; ContentLength := ContentLength c; room := room c;
     ErrorHandler := ErrorHandler c |}.

Definition SetContentType (c : Ctx) (contentType : string) : Ctx :=
  SetHeader c "content-type" contentType.

(** [c.Write(b)]: the context after the write, [n] and [err]. *)
Definition Write (c : Ctx) (b : bytes) : Ctx * Z * option error :=
  let taken :=
    match room c with
    | None => b
    | Some k => firstn k b
    end in
  let c' :=
    {| URLPath := URLPath c; request := request c; response := response c;
       body := (body c ++ taken)%list; ContentLength := ContentLength c;
       room := (fun k => (k - length taken)%nat) <$> room c;
       ErrorHandler := ErrorHandler c |} in
  (c', Z.of_nat (length taken),
   if (length taken <? length b)%nat then Some "short write" else None).

Definition add_ContentLength (c : Ctx) (n : Z) : Ctx :=
  {| URLPath := URLPath c; request := request c; response := response c;
     body := body c; ContentLength := ContentLength c + n; room := room c;
     ErrorHandler := ErrorHandler c |}.

(** [Serve]. *)
Definition Serve (asset : Asset) (c : Ctx) : Ctx * option error :=
  let c := SetContentType c (ContentType asset) in
  let c :=
    if String.eqb (GetHeader c "last-modified") ""
    then SetHeader c "last-modified" (http.TimeFormat (ModTime asset))
    else c in
  let '(c, n, err) :=
    if Compressed asset && strings.Contains (Header c "accept-encoding") "gzip"
    then Write (SetHeader c "etag" (EtagCompressed asset)) (ContentCompressed asset)
    else Write (SetHeader c "etag" (Etag asset)) (Content asset) in
  match err with
  | None => (add_ContentLength c n, err)
  | Some _ => (c, err)
  end.

(** Modelled from the spec: [ErrNotFound] and its [Envoy] are declared in
    another file of the package; the spec has the handler delegate "to an
    injected not-found/error-reporting collaborator rather than producing
    the response itself". *)
Definition ErrNotFound : error := "Not Found".

Section Handler.

Context {encoder : gzip.Encoder}.

(** [Handler]. *)
Definition Handler (fuel : nat) (w : World) (a : AssetCache) (c : Ctx)
  : option (Outcome (Ctx * option error) * AssetCache) :=
  let name := resolve a (URLPath c) in
  match Get fuel w a name with
  | None => None
  | Some (Panics msg, a') => Some (Panics msg, a')
  | Some (Returns (Some asset, true), a') => Some (Returns (Serve asset c), a')
  | Some (Returns (None, true), a') =>
      Some (Panics "invalid memory address or nil pointer dereference", a')
  | Some (Returns (_, false), a') =>
      let err := ErrNotFound in
      match ErrorHandler c with
      | Some handler => Some (Returns (c, handler err), a')
      | None => Some (Returns (c, Some err), a')
      end
  end.

End Handler.

(* ===================================================================== *)
(** ** Worlds to run the code in                                          *)
(* ===================================================================== *)

(** What a path names on a disk: a directory or a regular file. *)
Inductive node :=
| Directory (mtime : Z)
| Regular (mtime : Z) (data : bytes).

Definition ENOENT : error := "no such file or directory".
Definition EISDIR : error := "is a directory".

(** The world of a process started in [/], with the built-in MIME table
    and the initial [Compressable], over a disk given path by path. *)
Definition on_disk (disk : gmap string node) (now : Z) : World :=
  {| Stat p :=
       match disk !! p with
       | Some (Directory mtime) => inr {| os.IsDir := true; os.ModTime := mtime |}
       | Some (Regular mtime _) => inr {| os.IsDir := false; os.ModTime := mtime |}
       | None => inl ENOENT
       end;
     Open p :=
       match disk !! p with
       | Some (Directory _) => inr {| os.contents := inl EISDIR |}
       | Some (Regular _ data) => inr {| os.contents := inr data |}
       | None => inl ENOENT
       end;
     ReadFile p :=
       match disk !! p with
       | Some (Directory _) => inl EISDIR
       | Some (Regular _ data) => inr data
       | None => inl ENOENT
       end;
     Getwd := inr "/";
     Now := now;
     mimeTypes := mime.builtinTypes;
     Compressable := Compressable_init |}.


(** [Gen] comes back with [r]: some bound on the directory chain is enough. *)
Definition generates {encoder : gzip.Encoder} (w : World) (a : AssetCache)
    (name : string) (r : Res Asset * AssetCache) : Prop :=
  exists fuel, Gen fuel w a name = Some r.

(** A small site and caches over it, for the examples below. *)
Module Site.

Definition hello : bytes := bytes_of_string "hello".

Definition disk : gmap string node :=
  list_to_map
    [("/srv/www", Directory 1);
     ("/srv/www/index.html", Regular 7 hello);
     ("/srv/www/a.txt", Regular 8 (bytes_of_string "new text"));
     ("/srv/www/b.txt", Regular 9 (bytes_of_string "b"));
     ("/srv/www/logo.png", Regular 9 (bytes_of_string "PNG"));
     ("/srv/www/docs", Directory 2);
     ("/srv/www/docs/index.html", Regular 3 (bytes_of_string "<p>docs</p>"));
     ("/etc/passwd", Regular 4 (bytes_of_string "root:x:0:0"));
     ("/a.txt", Regular 8 (bytes_of_string "new text"));
     ("/d", Directory 5);
     ("/d/index.html", Directory 6);
     ("/d/index.html/index.html", Regular 7 hello)].

(** The cache object over [dir] holding [entries], its ticker running. *)
Definition cache (dir : string) (entries : list (string * Asset)) : AssetCache :=
  {| Dir := dir; Cache := list_to_map entries; Expire := 10; Interval := 3;
     CacheControl := "private, must-revalidate";
     Ticker := Some {| time.period := 3; time.stopped := false |} |}.

(** Some entry of a cache, loaded at time [t]. *)
Definition entry (t : Z) : Asset :=
  {| ContentType := "text/plain; charset=utf-8"; Loaded := t; ModTime := 2;
     Content := bytes_of_string "old text"; ContentCompressed := [];
     Etag := "old"; EtagCompressed := ""; Compressed := false |}.

End Site.

(** The site again, with open files whose read fails: there the read into
    the digest fails after the stat, the open, the read and the compression
    went well. *)
Definition failing_read : World :=
  let w := on_disk Site.disk 100 in
  {| Stat := Stat w; Open := fun _ => inr {| os.contents := inl "input/output error" |};
     ReadFile := ReadFile w; Getwd := Getwd w; Now := Now w;
     mimeTypes := mimeTypes w; Compressable := Compressable w |}.

(** A disk where the root's own path exists again below the root. *)
Definition nested_disk : gmap string node :=
  list_to_map
    [("/etc/passwd", Regular 4 (bytes_of_string "root:x:0:0"));
     ("/srv/www/etc/passwd", Regular 5 (bytes_of_string "decoy"));
     ("/srv/www/srv/www/etc/passwd", Regular 6 (bytes_of_string "deep decoy"));
     ("/srv/www/a.txt", Regular 8 (bytes_of_string "new text"));
     ("/srv/www/srv/www/a.txt", Regular 9 (bytes_of_string "deep text"));
     ("/srv/www/srv/www/srv/www/a.txt", Regular 10 (bytes_of_string "deepest text"));
     ("/srv/www/docs", Directory 2);
     ("/srv/www/docs/index.html", Regular 3 (bytes_of_string "<p>docs</p>"));
     ("/srv/www/srv/www/docs/index.html", Regular 6 (bytes_of_string "<p>deep</p>"))].

(** What a successful [Gen] has done: [key] is the path of the file it
    read. *)
Record generated {encoder : gzip.Encoder} (w : World) (a : AssetCache)
    (key : string) (asset : Asset) (a' : AssetCache) : Prop := {
  gen_stat : exists fs, Stat w key = inr fs /\ os.IsDir fs = false /\
                        ModTime asset = os.ModTime fs;
  gen_read : ReadFile w key = inr (Content asset);
  gen_open : exists f read, Open w key = inr f /\ os.contents f = inr read /\
                            Etag asset = fmt.Sprintf_quoted_hex (sha256.Sum read);
  gen_type : ContentType asset = mime.TypeByExtension (mimeTypes w) (filepath.Ext key);
  gen_flag : Compressed asset = stringsContainsCI (Compressable w) (filepath.Ext key);
  gen_compressed :
    if Compressed asset
    then ContentCompressed asset = gzip.stream 9 (Content asset) /\
         EtagCompressed asset =
           fmt.Sprintf_quoted_hex (sha256.Sum (gzip.stream 9 (Content asset)))
    else ContentCompressed asset = [] /\ EtagCompressed asset = "";
  gen_loaded : Loaded asset = Now w;
  gen_cached : a' = set_Cache a (<[key := asset]> (Cache a));
}.

(** A string with no slash in it. *)
Fixpoint plain (e : string) : Prop :=
  match e with
  | EmptyString => True
  | String c e' => is_slash c = false /\ plain e'
  end.

(** A path element that [path.Clean] keeps. *)
Definition real (e : string) : Prop :=
  e <> "" /\ e <> "." /\ e <> ".." /\ plain e.

(** The length of the joined elements, each with the slash before it. *)
Fixpoint weight (l : list string) : nat :=
  match l with
  | [] => O
  | e :: l' => (S (String.length e) + weight l')%nat
  end.

(** The cache object after a call of [Gen] that returned [r], when the
    file read was [key]. *)
Definition after_Gen (a : AssetCache) (r : Res Asset) (key : string) : AssetCache :=
  match r with
  | inl _ => a
  | inr asset => set_Cache a (<[key := asset]> (Cache a))
  end.

(** The elements that [path.Clean] keeps of a rooted path, first one
    first. *)
Definition kept (p : string) : list string :=
  rev (fold_left (path.clean_element true) (path.elements p) []).

(** A rooted path lies under a rooted root when the elements kept of the
    root begin the elements kept of the path. *)
Definition under (root p : string) : Prop := kept root `prefix_of` kept p.

(** A rooted path with no [.] and no [..] element. *)
Definition settled (p : string) : Prop :=
  exists p', p = String slash p' /\
    Forall (fun e => e <> "." /\ e <> "..") (path.elements p').

(** A digit of lower-case hexadecimal notation. *)
Definition is_lower_hex (c : ascii) : bool :=
  let n := nat_of_ascii c in
  ((48 <=? n)%nat && (n <=? 57)%nat) || ((97 <=? n)%nat && (n <=? 102)%nat).

(** An entity tag as [Gen] writes it: the 64 lower-case hexadecimal
    digits of a SHA-256 digest between double quotes. *)
Definition is_etag (s : string) : Prop :=
  exists digits,
    s = String quote (digits ++ String quote "") /\
    String.length digits = 64%nat /\
    forallb is_lower_hex (list_ascii_of_string digits) = true.

(** Case analysis on the next thing [Gen] asks of the world. *)
Ltac gen_step H :=
  match type of H with
  | context [match ?x with _ => _ end] =>
      let E := fresh "E" in destruct x eqn:E; simpl in H; try discriminate H
  | context [if ?b then _ else _] =>
      let E := fresh "E" in destruct b eqn:E; simpl in H; try discriminate H
  end.

(* ===================================================================== *)
(** ** The library functions on known values                              *)
(* ===================================================================== *)

(** The table of [path.Clean]'s own test. *)
Example clean_table :
  map path.Clean
    [""; "abc"; "abc/def"; "a/b/c"; "."; ".."; "../.."; "../../abc"; "/abc"; "/";
     "abc/"; "abc/def/"; "a/b/c/"; "./"; "../"; "../../"; "/abc/";
     "abc//def//ghi"; "//abc"; "///abc"; "//abc//"; "abc//";
     "abc/./def"; "/./abc/def"; "abc/.";
     "abc/def/ghi/../jkl"; "abc/def/../ghi/../jkl"; "abc/def/.."; "abc/def/../..";
     "/abc/def/../.."; "abc/def/../../.."; "/abc/def/../../..";
     "abc/def/../../../ghi/jkl/../../../mno";
     "abc/./../def"; "abc//./../def"; "abc/../../././../def"]
  = ["."; "abc"; "abc/def"; "a/b/c"; "."; ".."; "../.."; "../../abc"; "/abc"; "/";
     "abc"; "abc/def"; "a/b/c"; "."; ".."; "../.."; "/abc";
     "abc/def/ghi"; "/abc"; "/abc"; "/abc"; "abc";
     "abc/def"; "/abc/def"; "abc";
     "abc/def/jkl"; "abc/jkl"; "abc"; ".";
     "/"; ".."; "/";
     "../../mno";
     "def"; "def"; "../../def"].
Proof. vm_compute. reflexivity. Qed.

Example ext_table :
  map filepath.Ext
    ["path.go"; "path.pb.go"; "a.dir/b"; "a.dir/b.go"; "a.dir/"; "/srv/www/index.html";
     ".bashrc"; ""]
  = [".go"; ".go"; ""; ".go"; ""; ".html"; ".bashrc"; ""].
Proof. vm_compute. reflexivity. Qed.

(** The constants of FIPS 180-4 and digests of known messages. *)
Example sha256_constants :
  firstn 2 sha256.K = [0x428a2f98; 0x71374491] /\ last sha256.K = Some 0xc67178f2 /\
  firstn 2 sha256.init = [0x6a09e667; 0xbb67ae85] /\ last sha256.init = Some 0x5be0cd19.
Proof. repeat split; reflexivity. Qed.

Example sha256_vectors :
  map (fun m => fmt.hex (sha256.Sum (bytes_of_string m)))
    [""; "abc"; "hello";
     "aaaaaaaaaaaaaaaaaaaaaaaaaaaaaaaaaaaaaaaaaaaaaaaaaaaaaaaa";
     "aaaaaaaaaaaaaaaaaaaaaaaaaaaaaaaaaaaaaaaaaaaaaaaaaaaaaaaaaaaaaaaa"]
  = ["e3b0c44298fc1c149afbf4c8996fb92427ae41e4649b934ca495991b7852b855";
     "ba7816bf8f01cfea414140de5dae2223b00361a396177a9cb410ff61f20015ad";
     "2cf24dba5fb0a30e26e83b2ac5b9e29e1b161e5c1fa7425e73043362938b9824";
     "b35439a4ac6f0948b6d6f9e3c6af0f5f590ce20f1bde7090ef7970686ec6738a";
     "ffe054fe7ae0cb6dc65c3af9b61d5209f439851db43d0ba5997337df154668eb"].
Proof. vm_compute. reflexivity. Qed.

Example http_dates :
  map http.TimeFormat
    [0; 1136239445 * 1000000000; 1000000000 * 1000000000 + 999999999; 951782400 * 1000000000;
     951868799 * 1000000000; 1709251199 * 1000000000; 4102444800 * 1000000000]
  = ["Thu, 01 Jan 1970 00:00:00 GMT"; "Mon, 02 Jan 2006 22:04:05 GMT";
     "Sun, 09 Sep 2001 01:46:40 GMT"; "Tue, 29 Feb 2000 00:00:00 GMT";
     "Tue, 29 Feb 2000 23:59:59 GMT"; "Thu, 29 Feb 2024 23:59:59 GMT";
     "Fri, 01 Jan 2100 00:00:00 GMT"].
Proof. vm_compute. reflexivity. Qed.

(** Years of other than four digits: the last second of the year 9999 and
    the first of the year 10000, the zero [time.Time] (year 1), the first
    second of the year 0 and the last of the year before it, and the year
    123456. *)
Example http_dates_far :
  map http.TimeFormat
    [253402300799 * 1000000000; 253402300800 * 1000000000; time.zero;
     -62167219200 * 1000000000; -62167219201 * 1000000000;
     3833727840000 * 1000000000]
  = ["Fri, 31 Dec 9999 23:59:59 GMT"; "Sat, 01 Jan 10000 00:00:00 GMT";
     "Mon, 01 Jan 0001 00:00:00 GMT"; "Sat, 01 Jan 0000 00:00:00 GMT";
     "Fri, 31 Dec -0001 23:59:59 GMT"; "Tue, 01 Jan 123456 00:00:00 GMT"].
Proof. vm_compute. reflexivity. Qed.

(* ===================================================================== *)
(** ** The eviction loop                                                  *)
(* ===================================================================== *)

Section Sweep.

Variables expire now : Z.

Lemma sweep_entry_lookup cache kv k :
  sweep_entry expire now cache kv !! k = None \/
  sweep_entry expire now cache kv !! k = cache !! k.
Proof.
  unfold sweep_entry. destruct (time.After _ _); [|by right].
  destruct (decide (fst kv = k)) as [->|Hne].
  - left. apply lookup_delete_eq.
  - right. by apply lookup_delete_ne.
Qed.

(** The loop only deletes. *)
Lemma sweep_fold_none l : forall cache k,
  cache !! k = None -> fold_left (sweep_entry expire now) l cache !! k = None.
Proof.
  induction l as [|kv l IH]; intros cache k Hk; simpl; [done|].
  apply IH. destruct (sweep_entry_lookup cache kv k) as [H|H]; congruence.
Qed.

(** It deletes a key it meets with an entry whose [Loaded.Add(Expire)] is
    after the tick. *)
Lemma sweep_fold_deleted l : forall cache k v,
  (k, v) ∈ l -> time.After (time.Add (Loaded v) expire) now = true ->
  fold_left (sweep_entry expire now) l cache !! k = None.
Proof.
  induction l as [|kv l IH]; intros cache k v Hin Hafter; simpl.
  - by apply elem_of_nil in Hin.
  - apply elem_of_cons in Hin as [<-|Hin].
    + apply sweep_fold_none. unfold sweep_entry; simpl. rewrite Hafter.
      apply lookup_delete_eq.
    + by apply IH with v.
Qed.

(** It leaves alone a key it meets with no such entry. *)
Lemma sweep_fold_kept l : forall cache k,
  (forall v, (k, v) ∈ l -> time.After (time.Add (Loaded v) expire) now = false) ->
  fold_left (sweep_entry expire now) l cache !! k = cache !! k.
Proof.
  induction l as [|kv l IH]; intros cache k Hall; simpl; [done|].
  rewrite IH.
  - unfold sweep_entry. destruct (time.After _ _) eqn:Hafter; [|done].
    apply lookup_delete_ne. intros <-.
    rewrite (Hall (snd kv)) in Hafter; [done|].
    destruct kv; apply elem_of_cons; by left.
  - intros v Hin. apply Hall, elem_of_cons. by right.
Qed.

End Sweep.

Lemma sweep_lookup (a : AssetCache) (now : Z) (k : string) :
  Cache (sweep a now) !! k =
  match Cache a !! k with
  | Some v => if time.After (time.Add (Loaded v) (Expire a)) now then None else Some v
  | None => None
  end.
Proof.
  unfold sweep; simpl.
  destruct (Cache a !! k) as [v|] eqn:Hk.
  - destruct (time.After _ _) eqn:Hafter.
    + apply sweep_fold_deleted with v; [|done]. by apply elem_of_map_to_list.
    + rewrite sweep_fold_kept; [done|].
      intros v' Hin. apply elem_of_map_to_list in Hin.
      by replace v' with v by congruence.
  - by apply sweep_fold_none.
Qed.

(** C2, as the code has it: after a tick at time [now] an entry is in the
    store exactly when its age [now - Loaded] has reached the TTL [Expire];
    the tick evicts the entries whose age is below the TTL, the opposite of
    the eviction the claim describes. *)
Theorem sweep_evicts_the_fresh (a : AssetCache) (now : Z) (k : string) :
  Cache (sweep a now) !! k =
  match Cache a !! k with
  | Some v => if now - Loaded v <? Expire a then None else Some v
  | None => None
  end.
Proof.
  rewrite sweep_lookup. destruct (Cache a !! k) as [v|]; [|done].
  unfold time.After, time.Add.
  destruct (Z.ltb_spec now (Loaded v + Expire a)), (Z.ltb_spec (now - Loaded v) (Expire a));
    (done || lia).
Qed.

(** Over a run of ticks, with nothing else touching the cache: an entry is
    still there after them exactly when at every tick its age had reached
    the TTL. So an entry that is older than the TTL at the first tick it
    meets is there for good, ticks coming in the order of time. *)
Lemma sweeps_lookup (ticks : list Z) : forall (a : AssetCache) (k : string),
  Cache (sweeps a ticks) !! k =
  match Cache a !! k with
  | Some v =>
      if forallb (fun now => Expire a <=? now - Loaded v) ticks then Some v else None
  | None => None
  end.
Proof.
  induction ticks as [|now ticks IH]; intros a k; simpl.
  - by destruct (Cache a !! k).
  - unfold sweeps in *. simpl. rewrite IH, sweep_lookup.
    change (Expire (sweep a now)) with (Expire a).
    destruct (Cache a !! k) as [v|]; [|done].
    unfold time.After, time.Add.
    destruct (Z.ltb_spec now (Loaded v + Expire a)),
             (Z.leb_spec (Expire a) (now - Loaded v)); simpl; (done || lia).
Qed.

Lemma sweeps_keep_the_old (ticks : list Z) (a : AssetCache) (k : string) (v : Asset) :
  Cache a !! k = Some v ->
  Forall (fun now => Loaded v + Expire a <= now) ticks ->
  Cache (sweeps a ticks) !! k = Some v.
Proof.
  intros Hk Hold. rewrite sweeps_lookup, Hk.
  replace (forallb _ ticks) with true; [done|].
  symmetry. apply forallb_forall. intros now Hin.
  rewrite Forall_forall in Hold. apply list_elem_of_In, Hold in Hin.
  apply Z.leb_le. lia.
Qed.

(** With a TTL of 10, the entry that [Gen] loaded at time 0 is gone at the
    tick of time 5; had it met no tick before, it is kept at the ticks of
    times 10 and 25. *)
Example sweep_ticks :
  exists asset a,
    Gen (encoder := gzip.Store) 1 (on_disk Site.disk 0) (Site.cache "/srv/www" []) "/a.txt"
    = Some (inr asset, a) /\
    Expire a = 10 /\ Loaded asset = 0 /\
    Cache a !! "/srv/www/a.txt" = Some asset /\
    Cache (sweep a 5) !! "/srv/www/a.txt" = None /\
    Cache (sweep a 10) !! "/srv/www/a.txt" = Some asset /\
    Cache (sweep a 25) !! "/srv/www/a.txt" = Some asset.
Proof.
  eexists _, _. split; [vm_compute; reflexivity|]. repeat split; by vm_compute.
Qed.

(** The caches of the examples are what [MakeAssetCache] makes; a
    relative directory is taken from the working directory, and an interval
    that is not positive makes [time.NewTicker] panic. *)
Example MakeAssetCache_site :
  let w := on_disk Site.disk 100 in
  MakeAssetCache w "/srv/www" 10 3 = Returns (inr (Site.cache "/srv/www" [])) /\
  MakeAssetCache w "/" 10 3 = Returns (inr (Site.cache "/" [])) /\
  MakeAssetCache w "srv/./www/" 10 3 = Returns (inr (Site.cache "/srv/www" [])) /\
  MakeAssetCache w "/srv/www" 10 0 = Panics "non-positive interval for NewTicker".
Proof. repeat split; by vm_compute. Qed.

(* ===================================================================== *)
(** ** Generation                                                         *)
(* ===================================================================== *)

Section Generation.

Context {encoder : gzip.Encoder}.

Lemma gzipBytes_best (content : bytes) :
  gzipBytes content 9 = inr (gzip.stream 9 content).
Proof. reflexivity. Qed.

Lemma gzip_stream_nonempty (level : Z) (content : bytes) :
  gzip.stream level content <> [].
Proof.
  intros H. pose proof (gzip.stream_header level content) as Hh.
  rewrite H in Hh. discriminate Hh.
Qed.

(** [Gen] sees its argument only through the path it resolves to. *)
Lemma Gen_resolve fuel w a name name' :
  resolve a name = resolve a name' -> Gen fuel w a name = Gen fuel w a name'.
Proof. destruct fuel; simpl; [done|]. by intros ->. Qed.

(** On a directory [Gen] is [Gen] on the resolved path with [/index.html]
    appended. *)
Lemma Gen_directory fuel w a name fs :
  Stat w (resolve a name) = inr fs -> os.IsDir fs = true ->
  Gen (S fuel) w a name = Gen fuel w a (resolve a name ++ "/index.html").
Proof. intros Hs Hd. simpl. by rewrite Hs, Hd. Qed.

(** More fuel does not change a result. *)
Lemma Gen_fuel_mono fuel : forall w a name r,
  Gen fuel w a name = Some r -> Gen (S fuel) w a name = Some r.
Proof.
  induction fuel as [|fuel IH]; intros w a name r H; [discriminate H|].
  simpl in H. cbn [Gen].
  destruct (Stat w (resolve a name)) as [err|fs]; [done|].
  destruct (os.IsDir fs); [by apply IH|done].
Qed.

Lemma Gen_fuel_le fuel fuel' w a name r :
  (fuel <= fuel')%nat -> Gen fuel w a name = Some r -> Gen fuel' w a name = Some r.
Proof. intros Hle Hr. induction Hle; [done|]. by apply Gen_fuel_mono. Qed.

(** [Gen] comes back with one result at most. *)
Lemma generates_unique w a name r r' :
  generates w a name r -> generates w a name r' -> r = r'.
Proof.
  intros [f Hf] [f' Hf'].
  apply (Gen_fuel_le f (f `max` f')) in Hf; [|lia].
  apply (Gen_fuel_le f' (f `max` f')) in Hf'; [|lia].
  congruence.
Qed.

(** *** Failure *)

Lemma Gen_file_error w a name fs err a' :
  Gen_file w a name fs = (inl err, a') -> a' = a.
Proof.
  unfold Gen_file. intros H.
  repeat gen_step H; congruence.
Qed.

Lemma Gen_error fuel : forall w a name err a',
  Gen fuel w a name = Some (inl err, a') -> a' = a.
Proof.
  induction fuel as [|fuel IH]; intros w a name err a' H; [discriminate H|].
  simpl in H.
  destruct (Stat w (resolve a name)) as [e|fs]; [congruence|].
  destruct (os.IsDir fs).
  - by apply IH in H.
  - injection H as H. by apply Gen_file_error in H.
Qed.

(** The failures of [Gen] on a path that is no directory: the stat, the
    open, the read, the read into the digest. (The compression does not
    fail: 9 is a level [gzip.NewWriterLevel] takes.) *)
Lemma Gen_failures fuel w a name :
  let key := resolve a name in
  (forall err, Stat w key = inl err -> Gen (S fuel) w a name = Some (inl err, a)) /\
  (forall fs, Stat w key = inr fs -> os.IsDir fs = false ->
     (forall err, Open w key = inl err -> Gen (S fuel) w a name = Some (inl err, a)) /\
     (forall f, Open w key = inr f ->
        (forall err, ReadFile w key = inl err ->
           Gen (S fuel) w a name = Some (inl err, a)) /\
        (forall content err, ReadFile w key = inr content -> os.contents f = inl err ->
           Gen (S fuel) w a name = Some (inl err, a)))).
Proof.
  intros key. split; [|intros fs Hs Hd; split; [|intros f Ho; split]].
  - intros err Hs. simpl. fold key. by rewrite Hs.
  - intros err Ho. simpl. fold key. rewrite Hs, Hd. unfold Gen_file. by rewrite Ho.
  - intros err Hr. simpl. fold key. rewrite Hs, Hd. unfold Gen_file.
    by rewrite Ho, Hr.
  - intros content err Hr Hc. simpl. fold key. rewrite Hs, Hd. unfold Gen_file.
    rewrite Ho, Hr, Hc, gzipBytes_best. cbn zeta.
    by destruct (stringsContainsCI _ _).
Qed.

(** *** Success *)

Lemma Gen_file_success w a name fs asset a' :
  os.IsDir fs = false -> Stat w name = inr fs ->
  Gen_file w a name fs = (inr asset, a') -> generated w a name asset a'.
Proof.
  unfold Gen_file. intros Hd Hs H.
  destruct (Open w name) as [|f] eqn:Ho; [discriminate H|].
  destruct (ReadFile w name) as [|content] eqn:Hr; [discriminate H|].
  cbn zeta in H. rewrite gzipBytes_best in H.
  destruct (os.contents f) as [|read] eqn:Hc;
    destruct (stringsContainsCI (Compressable w) (filepath.Ext name)) eqn:Hx;
    try discriminate H;
    injection H as <- <-;
    (split; simpl; rewrite ?Hx; eauto 10).
Qed.

Lemma Gen_success fuel : forall w a name asset a',
  Gen fuel w a name = Some (inr asset, a') -> exists key, generated w a key asset a'.
Proof.
  induction fuel as [|fuel IH]; intros w a name asset a' H; [discriminate H|].
  simpl in H.
  destruct (Stat w (resolve a name)) as [e|fs] eqn:Hs; [congruence|].
  destruct (os.IsDir fs) eqn:Hd.
  - by apply IH in H.
  - injection H as H. eexists. by eapply Gen_file_success.
Qed.

(** In a generated asset the [Compressed] flag says whether the compressed
    content and its etag are there. *)
Lemma generated_flag w a key asset a' :
  generated w a key asset a' ->
  (Compressed asset = true <-> ContentCompressed asset <> []) /\
  (Compressed asset = true <-> EtagCompressed asset <> "").
Proof.
  intros G. pose proof (gen_compressed _ _ _ _ _ G) as Hcomp.
  pose proof (gzip_stream_nonempty 9 (Content asset)) as Hne.
  destruct (Compressed asset); destruct Hcomp as [-> ->]; split; split; done.
Qed.

End Generation.

(** C8: when [Gen] fails, whatever the step that failed (the stat, the
    open, the read, the compression, the read into the digest), the error
    is what the caller gets and the cache object is as it was: no entry was
    put under any key, so the store's mapping for the key is unchanged. *)
Theorem Gen_failure_caches_nothing {encoder : gzip.Encoder}
    (fuel : nat) (w : World) (a : AssetCache) (name : string)
    (err : error) (a' : AssetCache) :
  Gen fuel w a name = Some (inl err, a') ->
  a' = a /\ Cache a' !! resolve a name = Cache a !! resolve a name.
Proof.
  intros H. apply Gen_error in H. by subst a'.
Qed.

(** C5: an asset that [Gen] built was built from the file at some path
    [key] and is in the cache under it; its compressed content and its
    compressed etag are there together or not at all, and they are there
    exactly when the extension of [key] equals, up to case, an item of
    [Compressable] as it stands at the call. *)
Theorem Gen_compressed_iff_allowed {encoder : gzip.Encoder}
    (fuel : nat) (w : World) (a : AssetCache) (name : string)
    (asset : Asset) (a' : AssetCache) :
  Gen fuel w a name = Some (inr asset, a') ->
  exists key,
    Cache a' !! key = Some asset /\ ReadFile w key = inr (Content asset) /\
    (ContentCompressed asset <> [] <-> EtagCompressed asset <> "") /\
    (ContentCompressed asset <> [] <->
     exists item, In item (Compressable w) /\
       strings.ToLower item = strings.ToLower (filepath.Ext key)).
Proof.
  intros H. apply Gen_success in H as [key G]. exists key.
  destruct (generated_flag _ _ _ _ _ G) as [Hcontent Hetag].
  destruct G as [_ Hread _ _ Hflag _ _ ->].
  split; [apply lookup_insert_eq|]. split; [done|].
  split; [by rewrite <- Hcontent, <- Hetag|].
  rewrite <- Hcontent, Hflag. unfold stringsContainsCI. rewrite existsb_exists.
  split; intros [item [Hin Heq]]; exists item; split; auto; by apply String.eqb_eq.
Qed.

(* ===================================================================== *)
(** ** Lookup                                                             *)
(* ===================================================================== *)

(** C3: [Get] on a key that is in the cache calls [Gen] and returns what
    [Gen] made (an asset built from the files as they are now, and "ok"
    when [Gen] gave no error); on a key that is not in the cache it panics
    on the type assertion. Whenever [Get] returns an asset, the key was in
    the cache and the asset is a newly generated one. *)
Theorem Get_regenerates_or_panics {encoder : gzip.Encoder}
    (fuel : nat) (w : World) (a : AssetCache) (name : string) :
  let key := resolve a name in
  (forall raw, Cache a !! key = Some raw ->
     Get fuel w a name =
     match Gen fuel w a key with
     | Some (inr asset, a') => Some (Returns (Some asset, true), a')
     | Some (inl _, a') => Some (Returns (None, false), a')
     | None => None
     end) /\
  (Cache a !! key = None -> Get fuel w a name = Some (Panics nil_assertion, a)) /\
  (forall asset ok a', Get fuel w a name = Some (Returns (Some asset, ok), a') ->
     is_Some (Cache a !! key) /\ ok = true /\
     exists file, generated w a file asset a' /\ Loaded asset = Now w).
Proof.
  intros key. unfold Get. fold key. split; [|split].
  - intros raw ->. by destruct (Gen fuel w a key) as [[[]]|].
  - by intros ->.
  - intros asset ok a' H.
    destruct (Cache a !! key) as [raw|]; [|discriminate H].
    destruct (Gen fuel w a key) as [[[err|made] a'']|] eqn:HG; try discriminate H.
    injection H as <- <- <-.
    apply Gen_success in HG as [file G].
    split; [by eexists|]. split; [done|]. exists file. split; [done|]. by destruct G.
Qed.

(** C9, as the code has it: after [Close] the store is empty and the ticker
    stopped, and a lookup of any name, cached before or not, panics on the
    miss path. [Gen] is not called: the cache object comes back as [Close]
    left it. *)
Theorem Close_then_Get_panics {encoder : gzip.Encoder}
    (fuel : nat) (w : World) (a : AssetCache) (name : string) :
  Cache (Close a) = ∅ /\
  (forall t, Ticker (Close a) = Some t -> time.stopped t = true) /\
  Get fuel w (Close a) name = Some (Panics nil_assertion, Close a).
Proof.
  split; [done|]. split.
  - simpl. intros t Ht. destruct (Ticker a); simplify_eq/=. done.
  - unfold Get. change (Cache (Close a)) with (∅ : gmap string Asset).
    by rewrite lookup_empty.
Qed.

(** A handler over an empty cache panics on every request: a cache that
    only [Handler] uses stays empty. *)
Lemma Handler_on_empty_cache {encoder : gzip.Encoder}
    (fuel : nat) (w : World) (a : AssetCache) (c : Ctx) :
  Cache a = ∅ -> Handler fuel w a c = Some (Panics nil_assertion, a).
Proof.
  intros Hempty. unfold Handler, Get. by rewrite Hempty, lookup_empty.
Qed.

(** [Handler] hands [Get] the resolved name, and [Get] resolves it again:
    the name of a request for [/../../etc/passwd] is looked up as
    [/srv/www/etc/passwd]. *)
Example Handler_resolves_twice :
  let a := Site.cache "/srv/www" [] in
  resolve a "/../../etc/passwd" = "/etc/passwd" /\
  resolve a (resolve a "/../../etc/passwd") = "/srv/www/etc/passwd" /\
  resolve a (resolve a "/index.html") = "/srv/www/srv/www/index.html".
Proof. repeat split; by vm_compute. Qed.

(** C1, as the code has it. Over [/srv/www], [Gen] of [/a.txt] at time 0
    puts the asset under [/srv/www/a.txt]. At time 100 [Get] of [/a.txt]
    finds the key and does not return the cached asset: it calls [Gen],
    which stats [/srv/www/srv/www/a.txt] and fails, so [Get] answers nil
    and not-ok. [Get] of [/b.txt], a file on the disk and not in the cache,
    panics instead of generating. Over the root [/], where the second
    resolution changes nothing, the hit reads the file again and returns a
    new asset (loaded at 100, not at 0), which replaces the cached one. *)
Theorem Get_is_not_cache_first :
  let early := on_disk Site.disk 0 in
  let late := on_disk Site.disk 100 in
  exists cached a1 cached' r1 fresh r2,
    Gen (encoder := gzip.Store) 1 early (Site.cache "/srv/www" []) "/a.txt"
    = Some (inr cached, a1) /\
    Cache a1 !! "/srv/www/a.txt" = Some cached /\
    Get (encoder := gzip.Store) 2 late a1 "/a.txt" = Some (Returns (None, false), a1) /\
    Get (encoder := gzip.Store) 2 late a1 "/b.txt" = Some (Panics nil_assertion, a1) /\
    Gen (encoder := gzip.Store) 1 early (Site.cache "/" []) "/a.txt"
    = Some (inr cached', r1) /\
    Get (encoder := gzip.Store) 2 late r1 "/a.txt" = Some (Returns (Some fresh, true), r2) /\
    Loaded cached' = 0 /\ Loaded fresh = 100 /\ Cache r2 !! "/a.txt" = Some fresh.
Proof.
  intros early late. eexists _, _, _, _, _, _.
  split; [vm_compute; reflexivity|]. split; [by vm_compute|].
  split; [by vm_compute|]. split; [by vm_compute|].
  split; [vm_compute; reflexivity|]. split; [vm_compute; reflexivity|].
  split; [by vm_compute|]. split; by vm_compute.
Qed.

(* ===================================================================== *)
(** ** Serving                                                            *)
(* ===================================================================== *)

Lemma GetHeader_SetHeader (c : Ctx) (name value : string) :
  GetHeader (SetHeader c name value) name = value.
Proof. unfold GetHeader, field; simpl. by rewrite String.eqb_refl. Qed.

Lemma Header_SetHeader (c : Ctx) (name value k : string) :
  Header (SetHeader c name value) k = Header c k.
Proof. reflexivity. Qed.

(** What [Write] does to the context: the response headers stay, the
    bytes the sink took are appended to the body, and there is an error
    exactly when the sink did not take them all. *)
Lemma Write_spec (c : Ctx) (b : bytes) :
  let '(c', n, err) := Write c b in
  response c' = response c /\ request c' = request c /\
  ContentLength c' = ContentLength c /\
  (exists k, body c' = (body c ++ firstn k b)%list /\ n = Z.of_nat (length (firstn k b))) /\
  (err = None -> body c' = (body c ++ b)%list /\ n = Z.of_nat (length b)) /\
  (room c = None -> err = None).
Proof.
  unfold Write. destruct (room c) as [k|]; simpl.
  - split; [done|]. split; [done|]. split; [done|]. split; [by exists k|].
    split; [|done].
    destruct (Nat.ltb_spec (length (firstn k b)) (length b)) as [Hlt|Hge]; [done|].
    intros _. rewrite length_firstn in Hge.
    rewrite firstn_all2 by lia. done.
  - rewrite Nat.ltb_irrefl. split; [done|]. split; [done|]. split; [done|].
    split; [|done]. exists (length b). by rewrite firstn_all.
Qed.

(** C6: with "negotiated" for the conjunction of the asset's [Compressed]
    flag and the occurrence of "gzip" in the request's accept-encoding,
    [Serve] sets the etag header to [EtagCompressed] and writes
    [ContentCompressed] when negotiated, and sets it to [Etag] and writes
    [Content] in every other case. What is written is what the sink takes
    of the chosen body: all of it when [Serve] returns no error, which is
    so for a sink that takes everything; the content-length then grows by
    its length. *)
Theorem Serve_negotiates (asset : Asset) (c : Ctx) :
  let negotiated :=
    Compressed asset && strings.Contains (Header c "accept-encoding") "gzip" in
  let chosen := if negotiated then ContentCompressed asset else Content asset in
  let c' := fst (Serve asset c) in
  let err := snd (Serve asset c) in
  GetHeader c' "etag" = (if negotiated then EtagCompressed asset else Etag asset) /\
  (exists n, body c' = (body c ++ firstn n chosen)%list) /\
  (err = None ->
   body c' = (body c ++ chosen)%list /\
   ContentLength c' = ContentLength c + Z.of_nat (length chosen)) /\
  (room c = None -> err = None).
Proof.
  intros negotiated chosen c' err. subst c' err. unfold Serve.
  set (c1 := if String.eqb _ _ then _ else _).
  assert (Hreq : request c1 = request c /\ body c1 = body c /\
                 ContentLength c1 = ContentLength c /\ room c1 = room c).
  { subst c1. by destruct (String.eqb _ _). }
  destruct Hreq as (Hreq & Hbody & Hlen & Hroom).
  assert (Hneg : Compressed asset &&
                 strings.Contains (Header c1 "accept-encoding") "gzip" = negotiated).
  { unfold negotiated, Header. by rewrite Hreq. }
  rewrite Hneg. subst chosen. clearbody c1 negotiated.
  destruct negotiated.
  - pose proof (Write_spec (SetHeader c1 "etag" (EtagCompressed asset))
                  (ContentCompressed asset)) as Hw.
    destruct (Write _ _) as [[c2 n] e]. simpl in Hw.
    destruct Hw as (Hresp & _ & Hcl & (k & Hk & Hn) & Hall & Hnone).
    assert (GetHeader c2 "etag" = EtagCompressed asset) as Hetag.
    { unfold GetHeader. rewrite Hresp. apply GetHeader_SetHeader. }
    rewrite <- Hbody, <- Hlen, <- Hroom.
    destruct e as [e|]; simpl; (split; [done|]); (split; [by exists k|]);
      (split; [|by auto]); [done|].
    intros _. destruct (Hall eq_refl) as [-> ->]. by rewrite Hcl.
  - pose proof (Write_spec (SetHeader c1 "etag" (Etag asset)) (Content asset)) as Hw.
    destruct (Write _ _) as [[c2 n] e]. simpl in Hw.
    destruct Hw as (Hresp & _ & Hcl & (k & Hk & Hn) & Hall & Hnone).
    assert (GetHeader c2 "etag" = Etag asset) as Hetag.
    { unfold GetHeader. rewrite Hresp. apply GetHeader_SetHeader. }
    rewrite <- Hbody, <- Hlen, <- Hroom.
    destruct e as [e|]; simpl; (split; [done|]); (split; [by exists k|]);
      (split; [|by auto]); [done|].
    intros _. destruct (Hall eq_refl) as [-> ->]. by rewrite Hcl.
Qed.

(* ===================================================================== *)
(** ** Paths                                                              *)
(* ===================================================================== *)

Lemma elements_nonempty (p : string) : path.elements p <> [].
Proof.
  destruct p as [|c p]; simpl; [done|].
  destruct (is_slash c); [done|]. by destruct (path.elements p).
Qed.

Lemma elements_slash (p q : string) :
  path.elements (p ++ String slash q) = (path.elements p ++ path.elements q)%list.
Proof.
  induction p as [|c p IH]; simpl; [done|].
  rewrite IH. destruct (is_slash c); [done|].
  pose proof (elements_nonempty p). by destruct (path.elements p).
Qed.

Lemma elements_plain (p : string) : Forall plain (path.elements p).
Proof.
  induction p as [|c p IH]; simpl; [by constructor|].
  destruct (is_slash c) eqn:Hc; [by constructor|].
  destruct IH as [|e es He Hes]; constructor; simpl; auto.
Qed.

Lemma elements_of_plain (e : string) : plain e -> path.elements e = [e].
Proof.
  induction e as [|c e IH]; simpl; [done|].
  intros [-> He]. by rewrite IH.
Qed.

(** Splitting what was joined gives the elements back. *)
Lemma elements_Join (e : string) (l : list string) :
  Forall plain (e :: l) -> path.elements (strings.Join (e :: l) "/") = e :: l.
Proof.
  revert e. induction l as [|e' l IH]; intros e Hall.
  - apply elements_of_plain. by inversion Hall.
  - inversion Hall as [|? ? He Hl]; subst.
    change (strings.Join (e :: e' :: l) "/")
      with (e ++ String slash (strings.Join (e' :: l) "/")).
    by rewrite elements_slash, elements_of_plain, IH.
Qed.

Section CleanRooted.

Let step := path.clean_element true.

Lemma clean_real (out : list string) (e : string) : real e -> step out e = e :: out.
Proof.
  intros (H1 & H2 & H3 & _). unfold step, path.clean_element.
  apply String.eqb_neq in H1, H2, H3. by rewrite H1, H2, H3.
Qed.

Lemma clean_all_real (l : list string) : forall out,
  Forall real l -> fold_left step l out = (rev l ++ out)%list.
Proof.
  induction l as [|e l IH]; intros out Hall; [done|].
  inversion Hall; subst. simpl. rewrite clean_real, IH by done.
  by rewrite <- app_assoc.
Qed.

(** On a rooted path the output buffer holds real elements only. *)
Lemma clean_keeps_real (l : list string) : forall out,
  Forall plain l -> Forall real out -> Forall real (fold_left step l out).
Proof.
  induction l as [|e l IH]; intros out Hl Hout; [done|].
  inversion Hl as [|? ? He Hl']; subst. simpl. apply IH; [done|].
  unfold step, path.clean_element.
  destruct (String.eqb_spec e ""); [done|].
  destruct (String.eqb_spec e "."); [done|].
  destruct (String.eqb_spec e "..").
  - destruct Hout as [|top below Htop Hbelow]; [by constructor|].
    destruct (String.eqb top ".."); [by constructor|done].
  - constructor; [|done]. by repeat split.
Qed.

(** [path.Clean] of a rooted path, by elements. *)
Lemma Clean_rooted (p : string) :
  path.Clean (String slash p) =
  String slash (strings.Join (rev (fold_left step (path.elements p) [])) "/").
Proof. reflexivity. Qed.

(** Cleaning what was cleaned and joined rebuilds the same buffer. *)
Lemma clean_Join (out : list string) :
  Forall real out ->
  fold_left step (path.elements (strings.Join (rev out) "/")) [] = out.
Proof.
  intros Hout. destruct (rev out) as [|e l] eqn:Hrev.
  - apply (f_equal (@rev string)) in Hrev. rewrite rev_involutive in Hrev.
    by subst out.
  - assert (Forall real (e :: l)) as Hreal.
    { rewrite <- Hrev. by apply Forall_rev. }
    rewrite elements_Join.
    + rewrite clean_all_real by done.
      rewrite <- Hrev, rev_involutive. apply app_nil_r.
    + eapply Forall_impl; [exact Hreal|]. by intros ? (_ & _ & _ & ?).
Qed.

(** Over the root [/], resolving the resolved path with an element
    appended is resolving the path with the element appended. *)
Lemma Clean_rooted_again (d e : string) :
  real e ->
  path.Clean (String slash (path.Clean (String slash d) ++ String slash e)) =
  path.Clean (String slash (d ++ String slash e)).
Proof.
  intros He. rewrite (Clean_rooted d).
  set (out := fold_left step (path.elements d) []).
  assert (Forall real out) as Hout.
  { apply clean_keeps_real; [apply elements_plain|constructor]. }
  rewrite !Clean_rooted. f_equal. f_equal. f_equal.
  change (String slash (strings.Join (rev out) "/") ++ String slash e)
    with (String slash (strings.Join (rev out) "/" ++ String slash e)).
  change (path.elements (String slash (strings.Join (rev out) "/" ++ String slash e)))
    with ("" :: path.elements (strings.Join (rev out) "/" ++ String slash e)).
  rewrite !elements_slash, (elements_of_plain e) by apply He.
  change (fold_left step ("" :: ?l) []) with (fold_left step l []).
  rewrite !fold_left_app. by rewrite clean_Join.
Qed.

End CleanRooted.

Lemma resolve_index_over_root (a : AssetCache) (d : string) :
  Dir a = "/" ->
  resolve a (resolve a d ++ "/index.html") = resolve a (d ++ "/index.html").
Proof.
  intros Hroot. unfold resolve. rewrite Hroot.
  apply (Clean_rooted_again d "index.html").
  repeat split; done.
Qed.

(** *** The resolved path grows along the chain of index files *)

Lemma length_string_app (s t : string) :
  String.length (s ++ t) = (String.length s + String.length t)%nat.
Proof. induction s as [|c s IH]; simpl; [done|]. by rewrite IH. Qed.

Lemma weight_app (l l' : list string) : weight (l ++ l') = (weight l + weight l')%nat.
Proof. induction l as [|e l IH]; simpl; [done|]. rewrite IH. lia. Qed.

Lemma length_Join (e : string) (l : list string) :
  S (String.length (strings.Join (e :: l) "/")) = weight (e :: l).
Proof.
  revert e. induction l as [|e' l IH]; intros e.
  - simpl. lia.
  - change (strings.Join (e :: e' :: l) "/")
      with (e ++ String slash (strings.Join (e' :: l) "/")).
    rewrite length_string_app.
    change (String.length (String slash (strings.Join (e' :: l) "/")))
      with (S (String.length (strings.Join (e' :: l) "/"))).
    change (weight (e :: e' :: l)) with (S (String.length e) + weight (e' :: l))%nat.
    specialize (IH e'). lia.
Qed.

Lemma length_Join_weight (l : list string) :
  String.length (strings.Join l "/") = (weight l - 1)%nat.
Proof.
  destruct l as [|e l]; [done|].
  pose proof (length_Join e l). lia.
Qed.

Section Rejoin.

(** The root is [/] followed by [D]. *)
Variable D : string.

Let step := path.clean_element true.
Let out (x : string) : list string := fold_left step (path.elements (D ++ x)) [].
Let outD : list string := fold_left step (path.elements D) [].

Lemma out_real (x : string) : Forall real (out x).
Proof. apply clean_keeps_real; [apply elements_plain|constructor]. Qed.

Lemma clean_Join_onto (l acc : list string) :
  Forall real l ->
  fold_left step (path.elements (strings.Join (rev l) "/")) acc = (l ++ acc)%list.
Proof.
  intros Hl. destruct (rev l) as [|e l'] eqn:Hrev.
  - apply (f_equal (@rev string)) in Hrev. rewrite rev_involutive in Hrev.
    by subst l.
  - assert (Forall real (e :: l')) as Hreal.
    { rewrite <- Hrev. by apply Forall_rev. }
    rewrite elements_Join.
    + rewrite clean_all_real by done. by rewrite <- Hrev, rev_involutive.
    + eapply Forall_impl; [exact Hreal|]. by intros ? (_ & _ & _ & ?).
Qed.

(** Resolving, over the root, the resolved path of [x] with a real element
    [e] appended: the root's elements come a second time. *)
Lemma Clean_rejoined (x e : string) :
  real e ->
  path.Clean (String slash (D ++ (path.Clean (String slash (D ++ x)) ++ String slash e)))
  = String slash (strings.Join (rev (e :: out x ++ outD)) "/").
Proof.
  intros He. rewrite (Clean_rooted (D ++ x)). fold step. fold (out x).
  rewrite Clean_rooted. fold step. do 3 f_equal.
  change (String slash (strings.Join (rev (out x)) "/") ++ String slash e)
    with (String slash (strings.Join (rev (out x)) "/" ++ String slash e)).
  rewrite !elements_slash, (elements_of_plain e) by apply He.
  rewrite !fold_left_app. fold outD.
  rewrite clean_Join_onto by apply out_real.
  simpl. by rewrite clean_real.
Qed.

Lemma Clean_rejoined_longer (x e : string) :
  real e ->
  (String.length (path.Clean (String slash (D ++ x)))
   < String.length
       (path.Clean
          (String slash (D ++ (path.Clean (String slash (D ++ x)) ++ String slash e)))))%nat.
Proof.
  intros He. rewrite Clean_rejoined by done.
  rewrite (Clean_rooted (D ++ x)). fold step. fold (out x).
  simpl String.length. rewrite !length_Join_weight.
  simpl rev. rewrite rev_app_distr, !weight_app. simpl weight.
  destruct He as (Hne & _). destruct e as [|c e]; [done|]. simpl String.length.
  lia.
Qed.

End Rejoin.

Lemma resolve_index_longer (a : AssetCache) (name : string) :
  path.rooted (Dir a) = true ->
  (String.length (resolve a name)
   < String.length (resolve a (resolve a name ++ "/index.html")))%nat.
Proof.
  unfold resolve. destruct (Dir a) as [|c D] eqn:HD; [done|].
  simpl. unfold is_slash. intros ->%Ascii.eqb_eq.
  apply (Clean_rejoined_longer D name "index.html"). repeat split; done.
Qed.

Section Termination.

Context {encoder : gzip.Encoder}.

Variables (w : World) (a : AssetCache) (limit : nat).

(** The root is rooted, as [filepath.Abs] leaves it. *)
Hypothesis root_rooted : path.rooted (Dir a) = true.

(** No directory has a path longer than [limit] (a system refuses longer
    names; a disk holds finitely many). *)
Hypothesis directories_within_limit : forall p fs,
  Stat w p = inr fs -> os.IsDir fs = true -> (String.length p <= limit)%nat.

Lemma Gen_returns_within (fuel : nat) : forall name,
  (S limit - String.length (resolve a name) < fuel)%nat ->
  exists r, Gen fuel w a name = Some r.
Proof.
  induction fuel as [|fuel IH]; intros name Hfuel; [lia|].
  simpl. destruct (Stat w (resolve a name)) as [err|fs] eqn:Hs; [by eexists|].
  destruct (os.IsDir fs) eqn:Hd; [|by eexists].
  apply IH.
  pose proof (directories_within_limit _ _ Hs Hd).
  pose proof (resolve_index_longer a name root_rooted). lia.
Qed.

(** [Gen] returns: a bound two above the longest directory path is enough
    for every argument. *)
Theorem Gen_returns (name : string) : exists r, Gen (S (S limit)) w a name = Some r.
Proof. apply Gen_returns_within. lia. Qed.

End Termination.

(** The paths of a disk have a longest one. *)
Lemma on_disk_limit (disk : gmap string node) :
  exists limit, forall p, is_Some (disk !! p) -> (String.length p <= limit)%nat.
Proof.
  induction disk as [|p x disk Hp [limit IH]] using map_ind.
  - exists O. intros p [x Hx]. by rewrite lookup_empty in Hx.
  - exists (limit `max` String.length p)%nat. intros q Hq.
    destruct (decide (p = q)) as [->|Hne]; [lia|].
    rewrite lookup_insert_ne in Hq by done. apply IH in Hq. lia.
Qed.

(** X17: [Gen] comes back. Its recursion on a directory has no bound of
    its own, but over a rooted root every call stats a longer path than
    the one before, and a disk has a longest path: whatever the disk, the
    cache and the name, some number of calls gives a result, an asset or
    an error. *)
Theorem Gen_returns_on_disk {encoder : gzip.Encoder}
    (disk : gmap string node) (now : Z) (a : AssetCache) (name : string) :
  path.rooted (Dir a) = true -> exists r, generates (on_disk disk now) a name r.
Proof.
  intros Hroot. destruct (on_disk_limit disk) as [limit Hlimit].
  destruct (Gen_returns (on_disk disk now) a limit Hroot) with (name := name)
    as [r Hr].
  - intros p fs Hs _. apply Hlimit. simpl in Hs.
    destruct (disk !! p); [by eexists|discriminate Hs].
  - exists r, (S (S limit)). exact Hr.
Qed.

Lemma Gen_returns_on_disk_witness :
  path.rooted "/srv/www" = true /\
  exists r, generates (encoder := gzip.Store) (on_disk Site.disk 100)
              (Site.cache "/srv/www" []) "/docs" r.
Proof.
  split; [reflexivity|].
  exact (Gen_returns_on_disk (encoder := gzip.Store) Site.disk 100
           (Site.cache "/srv/www" []) "/docs" eq_refl).
Defined.

(* ===================================================================== *)
(** ** Generation, continued: scenarios                                   *)
(* ===================================================================== *)

Lemma list_ascii_app (s t : string) :
  list_ascii_of_string (s ++ t) = (list_ascii_of_string s ++ list_ascii_of_string t)%list.
Proof. induction s as [|c s IH]; simpl; [done|]. by rewrite IH. Qed.

Lemma Ext_index_html (dir : string) : filepath.Ext (dir ++ "/index.html") = ".html".
Proof.
  unfold filepath.Ext. rewrite list_ascii_app, rev_app_distr. reflexivity.
Qed.

Section Scenarios.

Context {encoder : gzip.Encoder}.

(** On a regular file that can be opened and read, [Gen] succeeds, with
    any fuel above zero. *)
Lemma Gen_regular fuel w a name fs f content read :
  Stat w (resolve a name) = inr fs -> os.IsDir fs = false ->
  Open w (resolve a name) = inr f -> ReadFile w (resolve a name) = inr content ->
  os.contents f = inr read ->
  exists asset,
    Gen (S fuel) w a name
    = Some (inr asset, set_Cache a (<[resolve a name := asset]> (Cache a))) /\
    generated w a (resolve a name) asset
      (set_Cache a (<[resolve a name := asset]> (Cache a))) /\
    Content asset = content /\
    Etag asset = fmt.Sprintf_quoted_hex (sha256.Sum read).
Proof.
  intros Hs Hd Ho Hr Hc.
  destruct (Gen (S fuel) w a name) as [[[err|asset] a']|] eqn:HG;
    simpl in HG; rewrite Hs, Hd in HG; try discriminate HG.
  - exfalso. injection HG as HG. unfold Gen_file in HG.
    rewrite Ho, Hr, Hc, gzipBytes_best in HG. cbn zeta in HG.
    by destruct (stringsContainsCI _ _).
  - injection HG as HG.
    pose proof (Gen_file_success _ _ _ _ _ _ Hd Hs HG) as G.
    pose proof (gen_cached _ _ _ _ _ G) as ->.
    exists asset. split; [done|]. split; [done|].
    pose proof (gen_read _ _ _ _ _ G) as Hr'.
    destruct (gen_open _ _ _ _ _ G) as (f' & read' & Ho' & Hc' & Het).
    split; [congruence|]. rewrite Het. repeat f_equal. congruence.
Qed.

(** The recursive call on a directory stats the resolved path of the
    resolved path. Over [/srv/www], [Gen] of the directory [/docs] looks
    for [/srv/www/srv/www/docs/index.html] and fails, while [Gen] of
    [/docs/index.html] finds the file. *)
Example Gen_directory_rejoins_root :
  let w := on_disk Site.disk 100 in
  let a := Site.cache "/srv/www" [] in
  resolve a (resolve a "/docs" ++ "/index.html") = "/srv/www/srv/www/docs/index.html" /\
  Gen (encoder := gzip.Store) 5 w a "/docs" = Some (inl ENOENT, a) /\
  exists asset a',
    Gen (encoder := gzip.Store) 5 w a "/docs/index.html" = Some (inr asset, a') /\
    Content asset = bytes_of_string "<p>docs</p>".
Proof.
  intros w a. split; [by vm_compute|]. split; [by vm_compute|].
  eexists _, _. split; by vm_compute.
Qed.

End Scenarios.

(** C4, the counterexample. Over the root [/], the directory [/d] has for
    index file a directory, [/d/index.html], which holds a regular
    [index.html]: [Gen] of [/d] falls back twice and returns the asset of
    [/d/index.html/index.html], where the claim has one fallback and "not
    found". *)
Lemma Gen_falls_back_twice :
  let w := on_disk Site.disk 100 in
  let a := Site.cache "/" [] in
  Stat w "/d" = inr {| os.IsDir := true; os.ModTime := 5 |} /\
  Stat w "/d/index.html" = inr {| os.IsDir := true; os.ModTime := 6 |} /\
  exists asset a',
    Gen (encoder := gzip.Store) 3 w a "/d" = Some (inr asset, a') /\
    Content asset = bytes_of_string "hello" /\
    Cache a' !! "/d/index.html/index.html" = Some asset.
Proof.
  intros w a. split; [by vm_compute|]. split; [by vm_compute|].
  eexists _, _. split; [by vm_compute|]. split; by vm_compute.
Qed.

(** C4, amended: over the root [/], for a path [d] that resolves to a
    directory, [Gen] of [d] comes back with a result exactly when [Gen] of
    [d] with [/index.html] appended comes back with it (the same asset or
    error, the same cache): the fallback is taken again whenever the index
    path is itself a directory, with no bound on the depth. *)
Theorem Gen_directory_as_its_index {encoder : gzip.Encoder}
    (w : World) (a : AssetCache) (d : string) (fs : os.FileInfo)
    (r : Res Asset * AssetCache) :
  Dir a = "/" -> Stat w (resolve a d) = inr fs -> os.IsDir fs = true ->
  generates w a d r <-> generates w a (d ++ "/index.html") r.
Proof.
  intros Hroot Hs Hd.
  assert (forall fuel, Gen (S fuel) w a d = Gen fuel w a (d ++ "/index.html")) as Hstep.
  { intros fuel. rewrite (Gen_directory fuel w a d fs Hs Hd).
    apply Gen_resolve. by apply resolve_index_over_root. }
  split; intros [fuel H].
  - destruct fuel as [|fuel]; [discriminate H|].
    exists fuel. by rewrite <- Hstep.
  - exists (S fuel). by rewrite Hstep.
Qed.

Lemma Gen_directory_as_its_index_witness :
  let w := on_disk Site.disk 100 in
  let a := Site.cache "/" [] in
  exists r, generates (encoder := gzip.Store) w a "/d/index.html" r /\
            generates (encoder := gzip.Store) w a "/d" r.
Proof.
  intros w a. eexists. split.
  - exists 2%nat. vm_compute. reflexivity.
  - eapply (Gen_directory_as_its_index (encoder := gzip.Store) w a "/d");
      [reflexivity|by vm_compute|reflexivity|].
    exists 2%nat. vm_compute. reflexivity.
Defined.

(** C7, the counterexample. With the MIME table Go starts with, the asset
    of [/srv/www/index.html], content "hello", has the content type
    [text/html; charset=utf-8], not [text/html]: every [text/] type of the
    table carries its charset. *)
Lemma Gen_index_html_content_type :
  let w := on_disk Site.disk 100 in
  let a := Site.cache "/srv/www" [] in
  ReadFile w "/srv/www/index.html" = inr (bytes_of_string "hello") /\
  exists asset a',
    Gen (encoder := gzip.Store) 1 w a "/index.html" = Some (inr asset, a') /\
    ContentType asset = "text/html; charset=utf-8" /\
    ContentType asset <> "text/html".
Proof.
  intros w a. split; [by vm_compute|].
  eexists _, _. split; [by vm_compute|]. split; by vm_compute.
Qed.

(** C7, amended: for a file named [index.html] with content "hello", where
    the MIME table has [text/html; charset=utf-8] for [.html] (as Go's
    built-in table has) and [.html] is compressible, [Gen] returns and
    caches an asset whose content type is [text/html; charset=utf-8], whose
    etag is the quoted lower-case hexadecimal SHA-256 digest of "hello",
    whose compressed content is the stream that the gzip encoder gives for
    "hello" at level 9, and whose compressed etag is the quoted hexadecimal
    SHA-256 digest of that stream. *)
Theorem Gen_index_html_hello {encoder : gzip.Encoder}
    (fuel : nat) (w : World) (a : AssetCache) (name dir : string)
    (fs : os.FileInfo) (f : os.File) :
  let hello := bytes_of_string "hello" in
  resolve a name = dir ++ "/index.html" ->
  Stat w (resolve a name) = inr fs -> os.IsDir fs = false ->
  Open w (resolve a name) = inr f -> os.contents f = inr hello ->
  ReadFile w (resolve a name) = inr hello ->
  mime.TypeByExtension (mimeTypes w) ".html" = "text/html; charset=utf-8" ->
  stringsContainsCI (Compressable w) ".html" = true ->
  exists asset,
    Gen (S fuel) w a name
    = Some (inr asset, set_Cache a (<[resolve a name := asset]> (Cache a))) /\
    Content asset = hello /\
    ContentType asset = "text/html; charset=utf-8" /\
    Etag asset = fmt.Sprintf_quoted_hex (sha256.Sum hello) /\
    Etag asset =
      String quote
        ("2cf24dba5fb0a30e26e83b2ac5b9e29e1b161e5c1fa7425e73043362938b9824"
           ++ String quote "") /\
    Compressed asset = true /\
    ContentCompressed asset = gzip.stream 9 hello /\
    EtagCompressed asset = fmt.Sprintf_quoted_hex (sha256.Sum (gzip.stream 9 hello)).
Proof.
  intros hello Hname Hs Hd Ho Hc Hr Hmime Hallow.
  destruct (Gen_regular fuel w a name fs f hello hello Hs Hd Ho Hr Hc)
    as (asset & HG & G & Hcontent & Hetag).
  exists asset. split; [done|]. split; [done|].
  destruct G as [_ _ _ Htype Hflag Hcomp _ _].
  rewrite Hname, Ext_index_html in Htype, Hflag.
  rewrite Hmime in Htype. rewrite Hallow in Hflag.
  rewrite Hflag, Hcontent in Hcomp. destruct Hcomp as [Hgz Hetgz].
  split; [done|]. split; [done|]. split; [by rewrite Hetag|].
  split; [done|]. by split.
Qed.

(** With the encoder that stores: the member is the ten bytes of the
    header, one stored block holding "hello", its CRC-32 [0x3610a686] and
    its length 5. *)
Lemma Gen_index_html_hello_witness :
  exists asset,
    Gen (encoder := gzip.Store) 1 (on_disk Site.disk 100) (Site.cache "/srv/www" [])
      "/index.html"
    = Some (inr asset,
            set_Cache (Site.cache "/srv/www" []) {["/srv/www/index.html" := asset]}) /\
    ContentType asset = "text/html; charset=utf-8" /\
    Etag asset =
      String quote
        ("2cf24dba5fb0a30e26e83b2ac5b9e29e1b161e5c1fa7425e73043362938b9824"
           ++ String quote "") /\
    ContentCompressed asset =
      [x1f; x8b; x08; x00; x00; x00; x00; x00; x02; xff;
       x01; x05; x00; xfa; xff; x68; x65; x6c; x6c; x6f;
       x86; xa6; x10; x36; x05; x00; x00; x00] /\
    EtagCompressed asset =
      String quote
        ("9272c277db75d3fd0f041cdb13fe6db291c28575eebb05fe2c9c45f893a3a5df"
           ++ String quote "").
Proof.
  destruct (Gen_index_html_hello (encoder := gzip.Store) 0 (on_disk Site.disk 100)
              (Site.cache "/srv/www" []) "/index.html" "/srv/www"
              {| os.IsDir := false; os.ModTime := 7 |}
              {| os.contents := inr (bytes_of_string "hello") |})
    as (asset & HG & _ & Htype & _ & Hetag & _ & Hgz & Hetgz);
    [by vm_compute ..|].
  exists asset. split; [exact HG|]. split; [exact Htype|]. split; [exact Hetag|].
  split; [rewrite Hgz|rewrite Hetgz]; by vm_compute.
Defined.

Lemma Gen_failure_caches_nothing_witness :
  let a := Site.cache "/srv/www" [("/srv/www/index.html", Site.entry 0)] in
  exists err a',
    Gen (encoder := gzip.Store) 1 failing_read a "/index.html" = Some (inl err, a') /\
    a' = a /\ Cache a' !! "/srv/www/index.html" = Some (Site.entry 0).
Proof.
  intros a.
  assert (Gen (encoder := gzip.Store) 1 failing_read a "/index.html"
          = Some (inl "input/output error", a)) as HG by (by vm_compute).
  destruct (Gen_failure_caches_nothing 1 failing_read a "/index.html" _ _ HG) as [Ha _].
  exists "input/output error", a.
  split; [exact HG|]. split; [exact Ha|]. by vm_compute.
Defined.

Lemma Gen_compressed_iff_allowed_witness :
  exists key asset a',
    Gen (encoder := gzip.Store) 2 (on_disk Site.disk 100) (Site.cache "/" []) "/srv/www"
    = Some (inr asset, a') /\
    key = "/srv/www/index.html" /\ Cache a' !! key = Some asset /\
    (ContentCompressed asset <> [] <-> EtagCompressed asset <> "").
Proof.
  eexists _, _, _. split; [vm_compute; reflexivity|].
  match goal with
  | |- context [Cache ?a' !! _ = Some ?asset] =>
      destruct (Gen_compressed_iff_allowed (encoder := gzip.Store) 2
                  (on_disk Site.disk 100) (Site.cache "/" []) "/srv/www" asset a')
        as (key & Hk & _ & Hboth & _); [by vm_compute|]
  end.
  split; [reflexivity|]. split; [by vm_compute|]. exact Hboth.
Defined.

(* ===================================================================== *)
(** ** The cache object through the calls                                 *)
(* ===================================================================== *)

Section Frames.

Context {encoder : gzip.Encoder}.

Lemma Gen_file_shape w a b name fs :
  exists r, Gen_file w a name fs = (r, after_Gen a r name) /\
            Gen_file w b name fs = (r, after_Gen b r name).
Proof.
  unfold Gen_file.
  destruct (Open w name) as [err|f]; [by exists (inl err)|].
  destruct (ReadFile w name) as [err|content]; [by exists (inl err)|].
  cbn zeta. rewrite gzipBytes_best.
  destruct (stringsContainsCI _ _), (os.contents f) as [err|read];
    (by exists (inl err)) || (eexists (inr _); split; reflexivity).
Qed.

(** [Gen] reads the root of the cache object and nothing else of it: over
    another object with the same root it returns the same, and puts the
    same asset under the same key. *)
Lemma Gen_shape fuel : forall w a b name r a',
  Dir b = Dir a -> Gen fuel w a name = Some (r, a') ->
  exists key, a' = after_Gen a r key /\ Gen fuel w b name = Some (r, after_Gen b r key).
Proof.
  induction fuel as [|fuel IH]; intros w a b name r a' Hdir H; [discriminate H|].
  simpl in *. assert (resolve b name = resolve a name) as ->.
  { unfold resolve. by rewrite Hdir. }
  destruct (Stat w (resolve a name)) as [err|fs].
  - injection H as <- <-. by exists "".
  - destruct (os.IsDir fs); [by apply IH|].
    destruct (Gen_file_shape w a b (resolve a name) fs) as (r0 & Ha & Hb).
    rewrite Ha in H. injection H as <- <-. rewrite Hb. by eexists.
Qed.

End Frames.

(** X1: in a world that has not changed, generating again returns the
    same asset (the same content, etags and load time) and leaves the cache
    object as the first call left it. *)
Theorem Gen_again {encoder : gzip.Encoder}
    (fuel : nat) (w : World) (a : AssetCache) (name : string)
    (asset : Asset) (a' : AssetCache) :
  Gen fuel w a name = Some (inr asset, a') ->
  Gen fuel w a' name = Some (inr asset, a').
Proof.
  intros H.
  destruct (Gen_shape fuel w a a name _ _ eq_refl H) as (key & Ha' & _).
  assert (Dir a' = Dir a) as Hdir by (by rewrite Ha').
  destruct (Gen_shape fuel w a a' name _ _ Hdir H) as (key' & Ha'' & ->).
  f_equal. f_equal. clear Ha' H Hdir. subst a'. simpl. unfold set_Cache. simpl.
  f_equal. apply insert_insert_eq.
Qed.

Lemma Gen_again_witness :
  exists asset a',
    Gen (encoder := gzip.Store) 2 (on_disk Site.disk 100) (Site.cache "/" []) "/srv/www"
    = Some (inr asset, a') /\
    Gen (encoder := gzip.Store) 2 (on_disk Site.disk 100) a' "/srv/www"
    = Some (inr asset, a').
Proof.
  assert (exists asset a',
    Gen (encoder := gzip.Store) 2 (on_disk Site.disk 100) (Site.cache "/" []) "/srv/www"
    = Some (inr asset, a')) as (asset & a' & H).
  { eexists _, _. vm_compute. reflexivity. }
  exists asset, a'. split; [exact H|]. exact (Gen_again _ _ _ _ _ _ H).
Defined.

(** X2: a call of [Gen] that succeeds changes the cache under one key, the
    path of the file it read, where it puts the asset it returns; every
    other key keeps what it had, and the root, the TTL, the interval, the
    cache-control text and the ticker stay as they were. *)
Theorem Gen_changes_one_key {encoder : gzip.Encoder}
    (fuel : nat) (w : World) (a : AssetCache) (name : string)
    (asset : Asset) (a' : AssetCache) :
  Gen fuel w a name = Some (inr asset, a') ->
  exists key,
    ReadFile w key = inr (Content asset) /\
    Cache a' !! key = Some asset /\
    (forall k, k <> key -> Cache a' !! k = Cache a !! k) /\
    Dir a' = Dir a /\ Expire a' = Expire a /\ Interval a' = Interval a /\
    CacheControl a' = CacheControl a /\ Ticker a' = Ticker a.
Proof.
  intros H. apply Gen_success in H as [key G]. exists key.
  destruct G as [_ Hread _ _ _ _ _ ->]. simpl.
  split; [done|]. split; [apply lookup_insert_eq|].
  split; [|done]. intros k Hk. by apply lookup_insert_ne.
Qed.

Lemma Gen_changes_one_key_witness :
  exists asset a',
    Gen (encoder := gzip.Store) 1 (on_disk Site.disk 100)
      (Site.cache "/srv/www" [("/srv/www/b.txt", Site.entry 0)]) "/a.txt"
    = Some (inr asset, a') /\
    Cache a' !! "/srv/www/a.txt" = Some asset /\
    Cache a' !! "/srv/www/b.txt" = Some (Site.entry 0).
Proof.
  assert (exists asset a',
    Gen (encoder := gzip.Store) 1 (on_disk Site.disk 100)
      (Site.cache "/srv/www" [("/srv/www/b.txt", Site.entry 0)]) "/a.txt"
    = Some (inr asset, a')) as (asset & a' & H).
  { eexists _, _. vm_compute. reflexivity. }
  exists asset, a'. split; [exact H|].
  destruct (Gen_changes_one_key _ _ _ _ _ _ H) as (key & Hread & Hkey & Hrest & _).
  assert (key = "/srv/www/a.txt") as ->.
  { destruct (decide (key = "/srv/www/a.txt")) as [|Hne]; [done|].
    exfalso. apply not_eq_sym, Hrest in Hne.
    revert H Hne. vm_compute. intros [= <- <-]. vm_compute. discriminate. }
  split; [exact Hkey|]. rewrite Hrest by done. by vm_compute.
Defined.

(** X3: a tick of the eviction loop only removes: what is in the cache
    after it was there before, under the same key and unchanged, and the
    root, the TTL, the interval, the cache-control text and the ticker are
    as they were. *)
Theorem sweep_only_removes (a : AssetCache) (now : Z) :
  Cache (sweep a now) ⊆ Cache a /\
  Dir (sweep a now) = Dir a /\ Expire (sweep a now) = Expire a /\
  Interval (sweep a now) = Interval a /\
  CacheControl (sweep a now) = CacheControl a /\ Ticker (sweep a now) = Ticker a.
Proof.
  split; [|done]. apply map_subseteq_spec. intros k v.
  rewrite sweep_lookup. destruct (Cache a !! k) as [v'|]; [|done].
  by destruct (time.After _ _).
Qed.

(** X4: an entry that is in the cache after one tick is in the cache
    after every later tick: the loop removes an entry at the first tick it
    meets or never. *)
Theorem sweep_survivor_stays (a : AssetCache) (now later : Z) (k : string) (v : Asset) :
  Cache (sweep a now) !! k = Some v -> now <= later ->
  Cache (sweep (sweep a now) later) !! k = Some v.
Proof.
  intros Hk Hlater. rewrite sweep_lookup, Hk.
  change (Expire (sweep a now)) with (Expire a).
  rewrite sweep_lookup in Hk. destruct (Cache a !! k) as [v'|]; [|done].
  unfold time.After, time.Add in *.
  destruct (Z.ltb_spec now (Loaded v' + Expire a)); [done|].
  injection Hk as ->.
  destruct (Z.ltb_spec later (Loaded v + Expire a)); [lia|done].
Qed.

Lemma sweep_survivor_stays_witness :
  let a := Site.cache "/srv/www" [("/srv/www/a.txt", Site.entry 0)] in
  Cache (sweep a 12) !! "/srv/www/a.txt" = Some (Site.entry 0) /\
  Cache (sweep (sweep a 12) 15) !! "/srv/www/a.txt" = Some (Site.entry 0).
Proof.
  intros a.
  assert (Cache (sweep a 12) !! "/srv/www/a.txt" = Some (Site.entry 0)) as H
    by (by vm_compute).
  split; [exact H|]. apply (sweep_survivor_stays a 12 15 _ _ H). lia.
Defined.

(** X5: the asset that [Gen] has just put in the cache is removed by a
    tick whose time is before the load time plus the TTL, and kept by a
    tick at or after it. *)
Theorem Gen_then_sweep {encoder : gzip.Encoder}
    (fuel : nat) (w : World) (a : AssetCache) (name : string)
    (asset : Asset) (a' : AssetCache) :
  Gen fuel w a name = Some (inr asset, a') ->
  exists key,
    Cache a' !! key = Some asset /\
    forall now,
      Cache (sweep a' now) !! key
      = (if now <? Now w + Expire a then None else Some asset).
Proof.
  intros H. apply Gen_success in H as [key G]. exists key.
  destruct G as [_ _ _ _ _ _ Hloaded ->].
  split; [apply lookup_insert_eq|]. intros now.
  rewrite sweep_lookup. simpl. rewrite lookup_insert_eq.
  unfold time.After, time.Add. by rewrite Hloaded.
Qed.

Lemma Gen_then_sweep_witness :
  exists asset a' key,
    Gen (encoder := gzip.Store) 1 (on_disk Site.disk 100) (Site.cache "/srv/www" []) "/a.txt"
    = Some (inr asset, a') /\
    Cache a' !! key = Some asset /\
    Cache (sweep a' 105) !! key = None /\
    Cache (sweep a' 110) !! key = Some asset.
Proof.
  assert (exists asset a',
    Gen (encoder := gzip.Store) 1 (on_disk Site.disk 100) (Site.cache "/srv/www" []) "/a.txt"
    = Some (inr asset, a')) as (asset & a' & H).
  { eexists _, _. vm_compute. reflexivity. }
  destruct (Gen_then_sweep _ _ _ _ _ _ H) as (key & Hkey & Hswept).
  exists asset, a', key. split; [exact H|]. split; [exact Hkey|].
  split; [exact (Hswept 105)|exact (Hswept 110)].
Defined.

(** X6: [Gen] works on a closed cache: the store then holds the one asset
    generated, under the path of the file read, and the ticker stays
    stopped, so no tick will come to evict it. *)
Theorem Close_then_Gen {encoder : gzip.Encoder}
    (fuel : nat) (w : World) (a : AssetCache) (name : string)
    (asset : Asset) (a' : AssetCache) :
  Gen fuel w (Close a) name = Some (inr asset, a') ->
  exists key,
    Cache a' = {[key := asset]} /\ ReadFile w key = inr (Content asset) /\
    Dir a' = Dir a /\
    (forall t, Ticker a' = Some t -> time.stopped t = true).
Proof.
  intros H. apply Gen_success in H as [key G]. exists key.
  destruct G as [_ Hread _ _ _ _ _ ->]. simpl.
  split; [apply insert_empty|]. split; [done|]. split; [done|].
  intros t Ht. destruct (Ticker a); simplify_eq/=. done.
Qed.

Lemma Close_then_Gen_witness :
  let a := Site.cache "/srv/www" [("/srv/www/b.txt", Site.entry 0)] in
  exists asset a',
    Gen (encoder := gzip.Store) 1 (on_disk Site.disk 100) (Close a) "/a.txt"
    = Some (inr asset, a') /\
    size (Cache a') = 1%nat.
Proof.
  intros a.
  assert (exists asset a',
    Gen (encoder := gzip.Store) 1 (on_disk Site.disk 100) (Close a) "/a.txt"
    = Some (inr asset, a')) as (asset & a' & H).
  { eexists _, _. vm_compute. reflexivity. }
  exists asset, a'. split; [exact H|].
  destruct (Close_then_Gen _ _ _ _ _ _ H) as (key & -> & _).
  apply map_size_singleton.
Defined.

(* ===================================================================== *)
(** ** Deleting                                                           *)
(* ===================================================================== *)

Lemma set_Cache_same (a : AssetCache) : set_Cache a (Cache a) = a.
Proof. by destruct a. Qed.

Section Keys.

Context {encoder : gzip.Encoder}.

(** Along the chain of index files the resolved path grows: the file that
    a successful [Gen] read has a path at least as long as the resolved
    argument, and a longer one when the argument names a directory. *)
Lemma Gen_key_length fuel : forall w a name asset a',
  path.rooted (Dir a) = true ->
  Gen fuel w a name = Some (inr asset, a') ->
  exists key,
    a' = after_Gen a (inr asset) key /\
    (String.length (resolve a name) <= String.length key)%nat /\
    (forall fs, Stat w (resolve a name) = inr fs -> os.IsDir fs = true ->
       (String.length (resolve a name) < String.length key)%nat).
Proof.
  induction fuel as [|fuel IH]; intros w a name asset a' Hroot H; [discriminate H|].
  simpl in H. destruct (Stat w (resolve a name)) as [err|fs] eqn:Hs; [discriminate H|].
  destruct (os.IsDir fs) eqn:Hd.
  - destruct (IH _ _ _ _ _ Hroot H) as (key & Ha' & Hle & _).
    pose proof (resolve_index_longer a name Hroot).
    exists key. split; [done|]. split; [lia|]. intros; lia.
  - destruct (Gen_file_shape w a a (resolve a name) fs) as (r & Hr & _).
    rewrite Hr in H. injection H as -> <-.
    exists (resolve a name). split; [done|]. split; [lia|].
    intros fs' [= <-]. congruence.
Qed.

End Keys.

(** X7: for a name that resolves to a file and is not in the cache, [Del]
    undoes [Gen]: the cache object after [Gen] and then [Del] of the name
    is the one before. *)
Theorem Del_undoes_Gen {encoder : gzip.Encoder}
    (fuel : nat) (w : World) (a : AssetCache) (name : string)
    (fs : os.FileInfo) (asset : Asset) (a' : AssetCache) :
  Stat w (resolve a name) = inr fs -> os.IsDir fs = false ->
  Cache a !! resolve a name = None ->
  Gen fuel w a name = Some (inr asset, a') ->
  Cache a' !! resolve a name = Some asset /\ Del a' name = a.
Proof.
  intros Hs Hd Hfresh H. destruct fuel as [|fuel]; [discriminate H|].
  simpl in H. rewrite Hs, Hd in H.
  destruct (Gen_file_shape w a a (resolve a name) fs) as (r & Hr & _).
  rewrite Hr in H. injection H as -> <-. simpl.
  split; [apply lookup_insert_eq|].
  unfold Del, resolve. simpl. fold (resolve a name).
  rewrite delete_insert_id by done. unfold set_Cache. simpl. by destruct a.
Qed.

Lemma Del_undoes_Gen_witness :
  let a := Site.cache "/srv/www" [("/srv/www/b.txt", Site.entry 0)] in
  exists asset a',
    Gen (encoder := gzip.Store) 1 (on_disk Site.disk 100) a "/a.txt" = Some (inr asset, a') /\
    Cache a' !! "/srv/www/a.txt" = Some asset /\ Del a' "/a.txt" = a.
Proof.
  intros a.
  assert (exists asset a',
    Gen (encoder := gzip.Store) 1 (on_disk Site.disk 100) a "/a.txt" = Some (inr asset, a'))
    as (asset & a' & H).
  { eexists _, _. vm_compute. reflexivity. }
  exists asset, a'. split; [exact H|].
  apply (Del_undoes_Gen (encoder := gzip.Store) 1 (on_disk Site.disk 100) a "/a.txt"
           {| os.IsDir := false; os.ModTime := 8 |}); [by vm_compute ..|exact H].
Defined.

(** X8: for a name that resolves to a directory, [Del] does not remove
    what [Gen] put in the cache: the asset is under the path of the index
    file, and [Del] of the name deletes the key of the directory. *)
Theorem Del_keeps_the_index {encoder : gzip.Encoder}
    (fuel : nat) (w : World) (a : AssetCache) (name : string)
    (fs : os.FileInfo) (asset : Asset) (a' : AssetCache) :
  path.rooted (Dir a) = true ->
  Stat w (resolve a name) = inr fs -> os.IsDir fs = true ->
  Gen fuel w a name = Some (inr asset, a') ->
  exists key, key <> resolve a name /\ Cache (Del a' name) !! key = Some asset.
Proof.
  intros Hroot Hs Hd H.
  destruct (Gen_key_length _ _ _ _ _ _ Hroot H) as (key & -> & _ & Hlonger).
  specialize (Hlonger fs Hs Hd).
  assert (key <> resolve a name) as Hne by (intros ->; lia).
  exists key. split; [done|]. unfold Del, resolve. simpl. fold (resolve a name).
  rewrite lookup_delete_ne by done. apply lookup_insert_eq.
Qed.

Lemma Del_keeps_the_index_witness :
  let a := Site.cache "/" [] in
  exists asset a' key,
    Gen (encoder := gzip.Store) 2 (on_disk Site.disk 100) a "/srv/www/docs"
    = Some (inr asset, a') /\
    key <> "/srv/www/docs" /\
    Cache (Del a' "/srv/www/docs") !! key = Some asset.
Proof.
  intros a.
  assert (exists asset a',
    Gen (encoder := gzip.Store) 2 (on_disk Site.disk 100) a "/srv/www/docs"
    = Some (inr asset, a')) as (asset & a' & H).
  { eexists _, _. vm_compute. reflexivity. }
  destruct (Del_keeps_the_index (encoder := gzip.Store) 2 (on_disk Site.disk 100) a
              "/srv/www/docs"
              {| os.IsDir := true; os.ModTime := 2 |} asset a')
    as (key & Hne & Hkey); [by vm_compute ..|exact H|].
  exists asset, a', key. split; [exact H|]. split; [exact Hne|exact Hkey].
Defined.

(* ===================================================================== *)
(** ** Where the keys lie                                                 *)
(* ===================================================================== *)

Section Under.

Let step := path.clean_element true.

Lemma clean_dotless (l : list string) : forall acc,
  Forall (fun e => e <> "." /\ e <> "..") l ->
  fold_left step l acc = (rev (filter (fun e => e <> "") l) ++ acc)%list.
Proof.
  induction l as [|e l IH]; intros acc Hl; [done|].
  inversion Hl as [|? ? [H1 H2] Hl']; subst. simpl. rewrite IH by done.
  unfold step, path.clean_element.
  destruct (String.eqb_spec e "") as [->|H0].
  - by rewrite filter_cons_False by (intros H; by apply H).
  - apply String.eqb_neq in H1, H2. rewrite H1, H2.
    rewrite filter_cons_True by done. simpl. by rewrite <- app_assoc.
Qed.

(** [path.Clean] keeps of a rooted path what [kept] says. *)
Lemma kept_Clean (p : string) :
  kept (path.Clean (String slash p)) = kept (String slash p).
Proof.
  rewrite Clean_rooted. unfold kept.
  change (path.elements (String slash ?q)) with ("" :: path.elements q).
  change (fold_left (path.clean_element true) ("" :: ?l) [])
    with (fold_left step l []).
  f_equal. apply clean_Join, clean_keeps_real; [apply elements_plain|constructor].
Qed.

Lemma Clean_rooted_idem (p : string) :
  path.Clean (path.Clean (String slash p)) = path.Clean (String slash p).
Proof.
  rewrite (Clean_rooted p) at 1. rewrite Clean_rooted. fold step.
  rewrite clean_Join; [by rewrite Clean_rooted|].
  apply clean_keeps_real; [apply elements_plain|constructor].
Qed.

Lemma settled_Clean (p : string) : settled (path.Clean (String slash p)).
Proof.
  rewrite Clean_rooted. fold step. eexists. split; [done|].
  set (out := fold_left step (path.elements p) []).
  assert (Forall real out) as Hout.
  { apply clean_keeps_real; [apply elements_plain|constructor]. }
  destruct (rev out) as [|e l] eqn:Hrev.
  - repeat constructor; done.
  - assert (Forall real (e :: l)) as Hreal.
    { rewrite <- Hrev. by apply Forall_rev. }
    rewrite elements_Join.
    + eapply Forall_impl; [exact Hreal|]. by intros ? (_ & ? & ? & _).
    + eapply Forall_impl; [exact Hreal|]. by intros ? (_ & _ & _ & ?).
Qed.

Lemma settled_index (p : string) : settled p -> settled (p ++ "/index.html").
Proof.
  intros (p' & -> & Hp'). exists (p' ++ String slash "index.html").
  split; [done|]. rewrite elements_slash. apply Forall_app. split; [done|].
  repeat constructor; done.
Qed.

(** A settled name, joined to a rooted root, resolves under the root. *)
Lemma under_rooted (D p : string) :
  settled p -> under (String slash D) (path.Clean (String slash D ++ p)).
Proof.
  intros (p' & -> & Hp').
  change (String slash D ++ String slash p') with (String slash (D ++ String slash p')).
  unfold under. rewrite kept_Clean. unfold kept.
  change (path.elements (String slash ?q)) with ("" :: path.elements q).
  change (fold_left (path.clean_element true) ("" :: ?l) [])
    with (fold_left step l []).
  rewrite elements_slash, fold_left_app.
  rewrite (clean_dotless (path.elements p')) by exact Hp'.
  rewrite rev_app_distr, rev_involutive. by eexists.
Qed.

End Under.

Lemma rooted_inv (p : string) :
  path.rooted p = true -> exists p', p = String slash p'.
Proof.
  destruct p as [|c p']; [done|]. simpl. unfold is_slash.
  intros ->%Ascii.eqb_eq. by eexists.
Qed.

Lemma resolve_settled (a : AssetCache) (name : string) :
  path.rooted (Dir a) = true -> settled (resolve a name).
Proof.
  intros [D HD]%rooted_inv. unfold resolve. rewrite HD. apply settled_Clean.
Qed.

Lemma resolve_under (a : AssetCache) (name : string) :
  path.rooted (Dir a) = true -> settled name -> under (Dir a) (resolve a name).
Proof.
  intros [D HD]%rooted_inv Hname. unfold resolve. rewrite HD.
  by apply under_rooted.
Qed.

Lemma resolve_clean (a : AssetCache) (name : string) :
  path.rooted (Dir a) = true ->
  path.Clean (resolve a name) = resolve a name /\ path.rooted (resolve a name) = true.
Proof.
  intros [D HD]%rooted_inv. unfold resolve. rewrite HD.
  change (String slash D ++ name) with (String slash (D ++ name)).
  split; [apply Clean_rooted_idem|]. by rewrite Clean_rooted.
Qed.

Section KeysUnder.

Context {encoder : gzip.Encoder}.

(** The file that [Gen] reads is at a path that [Gen] resolved. *)
Lemma Gen_key_resolved fuel : forall w a name r a',
  Gen fuel w a name = Some (r, a') ->
  exists x, a' = after_Gen a r (resolve a x).
Proof.
  induction fuel as [|fuel IH]; intros w a name r a' H; [discriminate H|].
  simpl in H. destruct (Stat w (resolve a name)) as [err|fs].
  - injection H as <- <-. by exists "".
  - destruct (os.IsDir fs); [by eapply IH|].
    destruct (Gen_file_shape w a a (resolve a name) fs) as (r0 & Hr & _).
    rewrite Hr in H. injection H as <- <-. by eexists.
Qed.

(** From a settled name, the file that [Gen] reads is under the root. *)
Lemma Gen_under fuel : forall w a name asset a',
  path.rooted (Dir a) = true -> settled name ->
  Gen fuel w a name = Some (inr asset, a') ->
  exists key, generated w a key asset a' /\ under (Dir a) key.
Proof.
  induction fuel as [|fuel IH]; intros w a name asset a' Hroot Hname H;
    [discriminate H|].
  simpl in H. destruct (Stat w (resolve a name)) as [err|fs] eqn:Hs; [discriminate H|].
  destruct (os.IsDir fs) eqn:Hd.
  - apply IH in H; [done..|]. by apply settled_index, resolve_settled.
  - injection H as H. exists (resolve a name).
    split; [by eapply Gen_file_success|by apply resolve_under].
Qed.

End KeysUnder.

(** X9: over a rooted root, [Get] never generates from a file outside the
    root, whatever the name it is given, [..] elements included: the asset
    it returns was read from a path under the root and is cached under that
    path. ([Get] resolves the name and [Gen] resolves the result again.) *)
Theorem Get_stays_under_the_root {encoder : gzip.Encoder}
    (fuel : nat) (w : World) (a : AssetCache) (name : string)
    (asset : Asset) (ok : bool) (a' : AssetCache) :
  path.rooted (Dir a) = true ->
  Get fuel w a name = Some (Returns (Some asset, ok), a') ->
  exists key,
    under (Dir a) key /\ ReadFile w key = inr (Content asset) /\
    Cache a' !! key = Some asset.
Proof.
  intros Hroot H. unfold Get in H.
  destruct (Cache a !! resolve a name) as [raw|]; [|discriminate H].
  destruct (Gen fuel w a (resolve a name)) as [[[err|made] a'']|] eqn:HG;
    try discriminate H.
  injection H as <- <- <-.
  apply Gen_under in HG as (key & G & Hunder); [|done|by apply resolve_settled].
  exists key. split; [done|]. destruct G as [_ Hread _ _ _ _ _ ->].
  split; [done|]. apply lookup_insert_eq.
Qed.

Lemma Get_stays_under_the_root_witness :
  let w := on_disk nested_disk 100 in
  exists held a asset a' key,
    Gen (encoder := gzip.Store) 1 w (Site.cache "/srv/www" []) "/../../etc/passwd"
    = Some (inr held, a) /\
    Content held = bytes_of_string "root:x:0:0" /\
    Get (encoder := gzip.Store) 1 w a "/../../etc/passwd"
    = Some (Returns (Some asset, true), a') /\
    under "/srv/www" key /\ ReadFile w key = inr (Content asset) /\
    Content asset = bytes_of_string "decoy".
Proof.
  intros w.
  assert (exists held a,
    Gen (encoder := gzip.Store) 1 w (Site.cache "/srv/www" []) "/../../etc/passwd"
    = Some (inr held, a) /\ Content held = bytes_of_string "root:x:0:0" /\
    Dir a = "/srv/www" /\
    exists asset a',
      Get (encoder := gzip.Store) 1 w a "/../../etc/passwd"
      = Some (Returns (Some asset, true), a') /\
      Content asset = bytes_of_string "decoy")
    as (held & a & HG & Hheld & Hdir & asset & a' & Hget & Hcontent).
  { eexists _, _. split; [vm_compute; reflexivity|]. split; [by vm_compute|].
    split; [by vm_compute|]. eexists _, _. split; [vm_compute; reflexivity|].
    by vm_compute. }
  destruct (Get_stays_under_the_root (encoder := gzip.Store) 1 w a "/../../etc/passwd"
              asset true a') as (key & Hunder & Hread & _);
    [by rewrite Hdir|exact Hget|].
  rewrite Hdir in Hunder.
  exists held, a, asset, a', key. repeat split; done.
Defined.

(** [under] tells the paths below a root from the others. *)
Example under_examples :
  under "/srv/www" "/srv/www/etc/passwd" /\ under "/srv/www" "/srv/www" /\
  under "/" "/etc/passwd" /\
  ~ under "/srv/www" "/etc/passwd" /\ ~ under "/srv/www" "/srv/wwwx/a".
Proof.
  split; [by exists ["etc"; "passwd"]|]. split; [by exists []|].
  split; [by exists ["etc"; "passwd"]|].
  split; intros [k Hk]; vm_compute in Hk; discriminate Hk.
Qed.

(** X10: over a rooted root, every key under which a call of [Handler]
    changes the cache is a path under the root: no request, whatever its
    path, makes [Handler] cache a file from outside the root. *)
Theorem Handler_caches_under_the_root {encoder : gzip.Encoder}
    (fuel : nat) (w : World) (a : AssetCache) (c : Ctx)
    (out : Outcome (Ctx * option error)) (a' : AssetCache) :
  path.rooted (Dir a) = true ->
  Handler fuel w a c = Some (out, a') ->
  forall k, Cache a' !! k <> Cache a !! k -> under (Dir a) k.
Proof.
  intros Hroot H k Hk. unfold Handler, Get in H.
  set (name := resolve a (resolve a (URLPath c))) in H.
  destruct (Cache a !! name) as [raw|]; [|by simplify_eq].
  destruct (Gen fuel w a name) as [[[err|made] a'']|] eqn:HG; [| |discriminate H].
  - apply Gen_error in HG as ->.
    destruct (ErrorHandler c); by simplify_eq.
  - assert (a' = a'') as -> by (by simplify_eq).
    apply Gen_under in HG as (key & G & Hunder); [|done|by apply resolve_settled].
    destruct G as [_ _ _ _ _ _ _ ->]. simpl in Hk.
    destruct (decide (k = key)) as [->|Hne]; [done|].
    by rewrite lookup_insert_ne in Hk.
Qed.

Lemma Handler_caches_under_the_root_witness :
  let w := on_disk nested_disk 100 in
  let a := Site.cache "/srv/www" [("/srv/www/a.txt", Site.entry 0)] in
  let c := {| URLPath := "/../../../a.txt"; request := []; response := []; body := [];
              ContentLength := 0; room := None; ErrorHandler := None |} in
  exists out a',
    Handler (encoder := gzip.Store) 1 w a c = Some (out, a') /\
    Cache a' !! "/srv/www/srv/www/a.txt" <> Cache a !! "/srv/www/srv/www/a.txt" /\
    under "/srv/www" "/srv/www/srv/www/a.txt".
Proof.
  intros w a c.
  assert (exists out a',
    Handler (encoder := gzip.Store) 1 w a c = Some (out, a') /\
    Cache a' !! "/srv/www/srv/www/a.txt" <> Cache a !! "/srv/www/srv/www/a.txt")
    as (out & a' & H & Hk).
  { eexists _, _. split; [vm_compute; reflexivity|]. by vm_compute. }
  exists out, a'. split; [exact H|]. split; [exact Hk|].
  exact (Handler_caches_under_the_root (encoder := gzip.Store) 1 w a c out a'
           eq_refl H _ Hk).
Defined.

(** X11: over a rooted root, [Gen] keeps the keys of the cache clean: when
    every key is a rooted path that [path.Clean] leaves as it is, so is
    every key after the call, whether it failed or succeeded. *)
Theorem Gen_keeps_keys_clean {encoder : gzip.Encoder}
    (fuel : nat) (w : World) (a : AssetCache) (name : string)
    (r : Res Asset) (a' : AssetCache) :
  path.rooted (Dir a) = true ->
  (forall k, is_Some (Cache a !! k) -> path.Clean k = k /\ path.rooted k = true) ->
  Gen fuel w a name = Some (r, a') ->
  forall k, is_Some (Cache a' !! k) -> path.Clean k = k /\ path.rooted k = true.
Proof.
  intros Hroot Hclean H k Hk.
  apply Gen_key_resolved in H as [x ->].
  destruct r as [err|asset]; simpl in Hk; [by apply Hclean|].
  destruct (decide (k = resolve a x)) as [->|Hne]; [by apply resolve_clean|].
  rewrite lookup_insert_ne in Hk by done. by apply Hclean.
Qed.

Lemma Gen_keeps_keys_clean_witness :
  exists r a',
    Gen (encoder := gzip.Store) 2 (on_disk Site.disk 100) (Site.cache "/srv/www" [])
      "//docs/../docs/./index.html"
    = Some (r, a') /\
    forall k, is_Some (Cache a' !! k) -> path.Clean k = k /\ path.rooted k = true.
Proof.
  assert (exists r a',
    Gen (encoder := gzip.Store) 2 (on_disk Site.disk 100) (Site.cache "/srv/www" [])
      "//docs/../docs/./index.html" = Some (r, a')) as (r & a' & H).
  { eexists _, _. vm_compute. reflexivity. }
  exists r, a'. split; [exact H|].
  apply (Gen_keeps_keys_clean (encoder := gzip.Store) 2 (on_disk Site.disk 100)
           (Site.cache "/srv/www" []) "//docs/../docs/./index.html" r a' eq_refl);
    [|exact H].
  intros k [v Hv]. change (Cache (Site.cache "/srv/www" [])) with (∅ : gmap string Asset) in Hv.
  by rewrite lookup_empty in Hv.
Defined.

(* ===================================================================== *)
(** ** Making the cache                                                   *)
(* ===================================================================== *)

Lemma MakeAssetCache_inv (w : World) (dir : string) (expire interval : Z)
    (a : AssetCache) :
  MakeAssetCache w dir expire interval = Returns (inr a) ->
  exists d,
    filepath_Abs w dir = inr d /\ 0 < interval /\
    a = {| Dir := d; Cache := ∅; Expire := expire; Interval := interval;
           CacheControl := "private, must-revalidate";
           Ticker := Some {| time.period := interval; time.stopped := false |} |}.
Proof.
  unfold MakeAssetCache, SetInterval, time.NewTicker.
  destruct (filepath_Abs w dir) as [err|d]; [discriminate|].
  destruct (Z.leb_spec interval 0); [discriminate|].
  intros [= <-]. by exists d.
Qed.

Lemma filepath_Abs_rooted (w : World) (dir d : string) :
  (forall wd, Getwd w = inr wd -> path.rooted wd = true) ->
  filepath_Abs w dir = inr d ->
  path.rooted d = true /\ path.Clean d = d.
Proof.
  intros Hwd. unfold filepath_Abs, filepath.IsAbs.
  destruct (path.rooted dir) eqn:Hdir.
  - apply rooted_inv in Hdir as [p ->]. intros H.
    assert (d = path.Clean (String slash p)) as -> by congruence.
    split; [by rewrite Clean_rooted|apply Clean_rooted_idem].
  - destruct (Getwd w) as [err|wd] eqn:Hg; [discriminate|]. intros H.
    destruct (rooted_inv wd (Hwd wd eq_refl)) as [p ->].
    assert (d = path.Clean (String slash (p ++ String slash dir))) as ->.
    { symmetry. by injection H. }
    split; [by rewrite Clean_rooted|apply Clean_rooted_idem].
Qed.

(** X12: where the working directory is a rooted path, the cache that
    [MakeAssetCache] returns has a root that is rooted and clean, whatever
    the directory asked for, relative ones included; its store is empty,
    its TTL and interval are the ones given, the interval is positive and
    its ticker runs with that period. *)
Theorem MakeAssetCache_makes (w : World) (dir : string) (expire interval : Z)
    (a : AssetCache) :
  (forall wd, Getwd w = inr wd -> path.rooted wd = true) ->
  MakeAssetCache w dir expire interval = Returns (inr a) ->
  path.rooted (Dir a) = true /\ path.Clean (Dir a) = Dir a /\
  Cache a = ∅ /\ Expire a = expire /\ Interval a = interval /\ 0 < interval /\
  Ticker a = Some {| time.period := interval; time.stopped := false |} /\
  CacheControl a = "private, must-revalidate".
Proof.
  intros Hwd H. apply MakeAssetCache_inv in H as (d & Habs & Hpos & ->).
  destruct (filepath_Abs_rooted w dir d Hwd Habs) as [Hrooted Hclean].
  simpl. repeat split; done.
Qed.

Lemma MakeAssetCache_makes_witness :
  exists a,
    MakeAssetCache (on_disk Site.disk 100) "srv/../srv/www/" 10 3 = Returns (inr a) /\
    Dir a = "/srv/www" /\ path.rooted (Dir a) = true /\ path.Clean (Dir a) = Dir a.
Proof.
  assert (exists a,
    MakeAssetCache (on_disk Site.disk 100) "srv/../srv/www/" 10 3 = Returns (inr a) /\
    Dir a = "/srv/www") as (a & H & Hdir).
  { eexists. split; [vm_compute; reflexivity|]. by vm_compute. }
  exists a. split; [exact H|]. split; [exact Hdir|].
  destruct (MakeAssetCache_makes (on_disk Site.disk 100) "srv/../srv/www/" 10 3 a)
    as (Hrooted & Hclean & _); [|exact H|].
  - intros wd [= <-]. reflexivity.
  - split; [exact Hrooted|exact Hclean].
Defined.

(** X13: on a cache as [MakeAssetCache] returns it, [Handler] panics on
    every request, in every world, and leaves the cache as it is; so it
    does on every request after. *)
Theorem Handler_on_a_new_cache_panics {encoder : gzip.Encoder}
    (w : World) (dir : string) (expire interval : Z) (a : AssetCache) :
  MakeAssetCache w dir expire interval = Returns (inr a) ->
  forall fuel w' c, Handler fuel w' a c = Some (Panics nil_assertion, a).
Proof.
  intros H fuel w' c. apply MakeAssetCache_inv in H as (d & _ & _ & ->).
  by apply Handler_on_empty_cache.
Qed.

Lemma Handler_on_a_new_cache_panics_witness :
  let w := on_disk Site.disk 100 in
  let c := {| URLPath := "/index.html"; request := []; response := []; body := [];
              ContentLength := 0; room := None; ErrorHandler := None |} in
  exists a,
    MakeAssetCache w "/srv/www" 10 3 = Returns (inr a) /\
    Stat w "/srv/www/index.html" = inr {| os.IsDir := false; os.ModTime := 7 |} /\
    Handler (encoder := gzip.Store) 1 w a c = Some (Panics nil_assertion, a).
Proof.
  intros w c.
  assert (exists a, MakeAssetCache w "/srv/www" 10 3 = Returns (inr a)) as (a & H).
  { eexists. vm_compute. reflexivity. }
  exists a. split; [exact H|]. split; [by vm_compute|].
  exact (Handler_on_a_new_cache_panics (encoder := gzip.Store) w "/srv/www" 10 3 a H 1%nat w c).
Defined.

(* ===================================================================== *)
(** ** Serving: the headers and the accounting                            *)
(* ===================================================================== *)

Lemma assoc_filter_ne (k n : string) (l : list (string * string)) :
  k <> n ->
  assoc String.eqb k (filter (fun h => fst h <> n) l) = assoc String.eqb k l.
Proof.
  intros Hne. induction l as [|[k' v] l IH]; [done|].
  destruct (decide (k' = n)) as [->|Hk'].
  - rewrite filter_cons_False by (simpl; intros H; by apply H).
    simpl. apply String.eqb_neq in Hne. rewrite String.eqb_sym in Hne.
    by rewrite Hne.
  - rewrite filter_cons_True by done. simpl. by rewrite IH.
Qed.

Lemma GetHeader_SetHeader_ne (c : Ctx) (name value k : string) :
  k <> name -> GetHeader (SetHeader c name value) k = GetHeader c k.
Proof.
  intros Hne. unfold GetHeader, field. simpl.
  apply String.eqb_neq in Hne as Hb. rewrite String.eqb_sym in Hb. rewrite Hb.
  by rewrite assoc_filter_ne.
Qed.

(** What [Serve] leaves of the context before the write. *)
Lemma Serve_unfold (asset : Asset) (c : Ctx) :
  exists c1 etag chosen,
    (forall k, k <> "content-type" -> k <> "last-modified" ->
       GetHeader c1 k = GetHeader c k) /\
    GetHeader c1 "content-type" = ContentType asset /\
    GetHeader c1 "last-modified"
    = (if String.eqb (GetHeader c "last-modified") ""
       then http.TimeFormat (ModTime asset) else GetHeader c "last-modified") /\
    body c1 = body c /\ ContentLength c1 = ContentLength c /\ room c1 = room c /\
    request c1 = request c /\ URLPath c1 = URLPath c /\
    chosen = (if Compressed asset && strings.Contains (Header c "accept-encoding") "gzip"
              then ContentCompressed asset else Content asset) /\
    Serve asset c
    = (let '(c2, n, err) := Write (SetHeader c1 "etag" etag) chosen in
       match err with
       | None => (add_ContentLength c2 n, err)
       | Some _ => (c2, err)
       end).
Proof.
  unfold Serve.
  set (c0 := SetContentType c (ContentType asset)).
  assert (GetHeader c0 "last-modified" = GetHeader c "last-modified") as Hlm.
  { by apply GetHeader_SetHeader_ne. }
  rewrite Hlm.
  set (c1 := if String.eqb (GetHeader c "last-modified") "" then _ else c0).
  assert (request c1 = request c) as Hreq.
  { subst c1. by destruct (String.eqb _ _). }
  exists c1.
  exists (if Compressed asset && strings.Contains (Header c "accept-encoding") "gzip"
          then EtagCompressed asset else Etag asset).
  eexists. split; [|split; [|split; [|split; [|split; [|split; [|split;
    [|split; [|split; [reflexivity|]]]]]]]]].
  - intros k H1 H2. subst c1 c0. destruct (String.eqb _ _);
      unfold SetContentType; by rewrite !GetHeader_SetHeader_ne.
  - subst c1 c0. unfold SetContentType. destruct (String.eqb _ _);
      [rewrite GetHeader_SetHeader_ne by done|]; apply GetHeader_SetHeader.
  - subst c1. destruct (String.eqb _ _) eqn:Hold.
    + apply GetHeader_SetHeader.
    + exact Hlm.
  - subst c1. by destruct (String.eqb _ _).
  - subst c1. by destruct (String.eqb _ _).
  - subst c1. by destruct (String.eqb _ _).
  - exact Hreq.
  - subst c1. by destruct (String.eqb _ _).
  - unfold Header. rewrite Hreq. by destruct (_ && _).
Qed.

(** X14: after [Serve] the response has the asset's content type; its
    last-modified header is the one the caller had set, if any, and else
    the asset's modification time in HTTP form; headers of other names than
    these and the etag are as they were. The request and its path are
    untouched. *)
Theorem Serve_sets_the_headers (asset : Asset) (c : Ctx) :
  let c' := fst (Serve asset c) in
  GetHeader c' "content-type" = ContentType asset /\
  GetHeader c' "last-modified"
  = (if String.eqb (GetHeader c "last-modified") ""
     then http.TimeFormat (ModTime asset) else GetHeader c "last-modified") /\
  (forall k, k <> "content-type" -> k <> "last-modified" -> k <> "etag" ->
     GetHeader c' k = GetHeader c k) /\
  request c' = request c /\ URLPath c' = URLPath c.
Proof.
  destruct (Serve_unfold asset c)
    as (c1 & etag & chosen & Hrest & Htype & Hlm & _ & _ & _ & Hreq & Hurl & _ & ->).
  pose proof (Write_spec (SetHeader c1 "etag" etag) chosen) as Hw.
  destruct (Write _ _) as [[c2 n] err] eqn:HW.
  destruct Hw as (Hresp & Hreq2 & _).
  assert (forall k, k <> "etag" -> GetHeader c2 k = GetHeader c1 k) as Hc2.
  { intros k Hk. unfold GetHeader at 1. rewrite Hresp.
    by apply GetHeader_SetHeader_ne. }
  assert (URLPath c2 = URLPath c1) as Hurl2.
  { unfold Write in HW. by injection HW as <- _ _. }
  assert (forall k, GetHeader (fst (match err with
                                    | None => (add_ContentLength c2 n, err)
                                    | Some _ => (c2, err)
                                    end)) k = GetHeader c2 k) as Hfst.
  { intros k. by destruct err. }
  simpl. rewrite !Hfst.
  split; [by rewrite Hc2|]. split; [by rewrite Hc2|].
  split; [intros k H1 H2 H3; rewrite Hfst, Hc2 by done; by apply Hrest|].
  simpl in Hreq2, Hurl2.
  destruct err; simpl; split; congruence.
Qed.

(** X15: when the write fails, [Serve] returns the error and leaves the
    content-length as it was, while the bytes that the sink did take, a
    proper part of the chosen body, are in the response. *)
Theorem Serve_write_failure (asset : Asset) (c : Ctx) (err : error) :
  let chosen :=
    if Compressed asset && strings.Contains (Header c "accept-encoding") "gzip"
    then ContentCompressed asset else Content asset in
  snd (Serve asset c) = Some err ->
  ContentLength (fst (Serve asset c)) = ContentLength c /\
  exists k, room c = Some k /\ (k < length chosen)%nat /\
            body (fst (Serve asset c)) = (body c ++ firstn k chosen)%list.
Proof.
  intros chosen0.
  destruct (Serve_unfold asset c)
    as (c1 & etag & chosen & _ & _ & _ & Hbody & Hlen & Hroom & _ & _ & Hchosen & ->).
  subst chosen0. rewrite <- Hchosen. clear Hchosen.
  unfold Write. simpl. rewrite Hroom, Hbody, Hlen.
  destruct (room c) as [k|]; simpl.
  - destruct (Nat.ltb_spec (length (firstn k chosen)) (length chosen)) as [Hlt|Hge];
      simpl; [|discriminate].
    intros _. split; [done|]. exists k. split; [done|]. split; [|done].
    rewrite length_firstn in Hlt. lia.
  - rewrite Nat.ltb_irrefl. discriminate.
Qed.

Lemma Serve_write_failure_witness :
  let asset := Site.entry 0 in
  let c := {| URLPath := "/a.txt"; request := [("accept-encoding", "gzip, br")];
              response := []; body := []; ContentLength := 0; room := Some 3%nat;
              ErrorHandler := None |} in
  snd (Serve asset c) = Some "short write" /\
  ContentLength (fst (Serve asset c)) = 0 /\
  body (fst (Serve asset c)) = bytes_of_string "old".
Proof.
  intros asset c.
  assert (snd (Serve asset c) = Some "short write") as H by (by vm_compute).
  split; [exact H|].
  destruct (Serve_write_failure asset c _ H) as (Hlen & k & Hroom & _ & Hbody).
  split; [exact Hlen|]. rewrite Hbody. injection Hroom as <-. by vm_compute.
Defined.

(* ===================================================================== *)
(** ** The entity tags                                                    *)
(* ===================================================================== *)

Lemma round_length (st : list Z) (kw : Z * Z) :
  length st = 8%nat -> length (sha256.round st kw) = 8%nat.
Proof.
  intros H. do 9 (destruct st as [|? st]; try discriminate H). reflexivity.
Qed.

Lemma rounds_length (kws : list (Z * Z)) : forall st,
  length st = 8%nat -> length (fold_left sha256.round kws st) = 8%nat.
Proof.
  induction kws as [|kw kws IH]; intros st H; [exact H|].
  simpl. by apply IH, round_length.
Qed.

Lemma block_length (h chunk : list Z) :
  length h = 8%nat -> length (sha256.block h chunk) = 8%nat.
Proof.
  intros H. unfold sha256.block.
  rewrite length_map, length_combine, rounds_length by exact H. by rewrite H.
Qed.

Lemma blocks_length (cs : list (list Z)) : forall h,
  length h = 8%nat -> length (fold_left sha256.block cs h) = 8%nat.
Proof.
  induction cs as [|c cs IH]; intros h H; [exact H|].
  simpl. by apply IH, block_length.
Qed.

(** A digest is 32 bytes, whatever the message. *)
Lemma Sum_length (msg : bytes) : length (sha256.Sum msg) = 32%nat.
Proof.
  unfold sha256.Sum.
  set (h := fold_left sha256.block _ _).
  assert (length h = 8%nat) as H by (by apply blocks_length).
  clearbody h. do 9 (destruct h as [|? h]; try discriminate H). reflexivity.
Qed.

Lemma hex_length (bs : bytes) : String.length (fmt.hex bs) = (2 * length bs)%nat.
Proof. induction bs as [|b bs IH]; [done|]. simpl. rewrite IH. lia. Qed.

Lemma hex_lower (bs : bytes) :
  forallb is_lower_hex (list_ascii_of_string (fmt.hex bs)) = true.
Proof.
  induction bs as [|b bs IH]; [done|].
  change (fmt.hex (b :: bs))
    with (String (fmt.hex_digit (sha256.Z_of_byte b / 16))
            (String (fmt.hex_digit (sha256.Z_of_byte b mod 16)) (fmt.hex bs))).
  cbn [list_ascii_of_string forallb]. rewrite IH, andb_true_r.
  by destruct b; vm_compute.
Qed.

Lemma Sprintf_quoted_hex_etag (msg : bytes) :
  is_etag (fmt.Sprintf_quoted_hex (sha256.Sum msg)).
Proof.
  exists (fmt.hex (sha256.Sum msg)). split; [done|]. split; [|apply hex_lower].
  by rewrite hex_length, Sum_length.
Qed.

(** X16: every asset that [Gen] returns carries an entity tag of 66
    characters, 64 lower-case hexadecimal digits between double quotes; a
    compressed asset carries a second one of the same form for its
    compressed content, and an asset that is not compressed carries the
    empty string there. *)
Theorem Gen_etags {encoder : gzip.Encoder} (fuel : nat) (w : World)
    (a a' : AssetCache) (name : string) (asset : Asset) :
  Gen fuel w a name = Some (inr asset, a') ->
  is_etag (Etag asset) /\ String.length (Etag asset) = 66%nat /\
  (if Compressed asset
   then is_etag (EtagCompressed asset)
   else EtagCompressed asset = "").
Proof.
  intros H. apply Gen_success in H as [key G].
  destruct (gen_open _ _ _ _ _ G) as (f & read & _ & _ & Het).
  pose proof (gen_compressed _ _ _ _ _ G) as Hcomp.
  split; [rewrite Het; apply Sprintf_quoted_hex_etag|]. split.
  - rewrite Het. unfold fmt.Sprintf_quoted_hex. simpl.
    rewrite length_string_app, hex_length, Sum_length. reflexivity.
  - destruct (Compressed asset); destruct Hcomp as [_ ->]; [|done].
    apply Sprintf_quoted_hex_etag.
Qed.

Lemma Gen_etags_witness :
  exists asset a',
    Gen (encoder := gzip.Store) 1 (on_disk Site.disk 100) (Site.cache "/srv/www" [])
      "/index.html" = Some (inr asset, a') /\
    Compressed asset = true /\
    is_etag (Etag asset) /\ is_etag (EtagCompressed asset).
Proof.
  assert (exists asset a',
    Gen (encoder := gzip.Store) 1 (on_disk Site.disk 100) (Site.cache "/srv/www" [])
      "/index.html" = Some (inr asset, a') /\ Compressed asset = true)
    as (asset & a' & H & Hc).
  { eexists _, _. split; vm_compute; reflexivity. }
  exists asset, a'. split; [exact H|]. split; [exact Hc|].
  destruct (Gen_etags _ _ _ _ _ _ H) as (He & _ & Hgz).
  rewrite Hc in Hgz. by split.
Defined.

(* ===================================================================== *)
(** ** Where the index of a directory is looked for                       *)
(* ===================================================================== *)

Section Index.

Let step := path.clean_element true.

Lemma Clean_kept (p : string) :
  path.Clean (String slash p) = String slash (strings.Join (kept (String slash p)) "/").
Proof. reflexivity. Qed.

Lemma kept_dotless (p : string) :
  Forall (fun e => e <> "." /\ e <> "..") (path.elements p) ->
  kept (String slash p) = filter (fun e => e <> "") (path.elements p).
Proof.
  intros Hp. unfold kept.
  change (path.elements (String slash ?q)) with ("" :: path.elements q).
  change (fold_left (path.clean_element true) ("" :: ?l) [])
    with (fold_left step l []).
  rewrite clean_dotless by exact Hp. by rewrite app_nil_r, rev_involutive.
Qed.

Lemma kept_app (D p : string) :
  Forall (fun e => e <> "." /\ e <> "..") (path.elements p) ->
  kept (String slash (D ++ String slash p))
  = (kept (String slash D) ++ filter (fun e => e <> "") (path.elements p))%list.
Proof.
  intros Hp. unfold kept.
  change (path.elements (String slash ?q)) with ("" :: path.elements q).
  change (fold_left (path.clean_element true) ("" :: ?l) [])
    with (fold_left step l []).
  rewrite elements_slash, fold_left_app.
  rewrite (clean_dotless (path.elements p)) by exact Hp.
  by rewrite rev_app_distr, rev_involutive.
Qed.

(** Joining a clean root to a settled path, cleaning, and joining the root
    again with a file name is joining the root twice. *)
Lemma Clean_joined_twice (D d file : string) :
  Forall (fun e => e <> "." /\ e <> "..") (path.elements D) ->
  Forall (fun e => e <> "." /\ e <> "..") (path.elements d) ->
  Forall (fun e => e <> "." /\ e <> "..") (path.elements file) ->
  path.Clean (String slash D
              ++ path.Clean (String slash D ++ String slash d) ++ String slash file)
  = path.Clean (String slash D ++ String slash D ++ String slash d ++ String slash file).
Proof.
  intros HD Hd Hfile.
  destruct (settled_Clean (D ++ String slash d)) as (j & Hj & Hjd).
  change (String slash D ++ String slash d) with (String slash (D ++ String slash d)).
  assert (kept (String slash j)
          = (kept (String slash D) ++ filter (fun e => e <> "") (path.elements d))%list)
    as Hkj.
  { rewrite <- Hj, kept_Clean. by apply kept_app. }
  rewrite Hj.
  change (String slash D ++ String slash j ++ String slash file)
    with (String slash (D ++ String slash (j ++ String slash file))).
  change (String slash D ++ String slash D ++ String slash d ++ String slash file)
    with (String slash (D ++ String slash (D ++ String slash (d ++ String slash file)))).
  rewrite !Clean_kept. do 2 f_equal.
  rewrite !kept_app.
  - rewrite !elements_slash, !filter_app.
    rewrite <- (kept_dotless j) by exact Hjd. rewrite Hkj.
    rewrite <- (kept_dotless D) by exact HD. by rewrite <- !app_assoc.
  - rewrite !elements_slash, !Forall_app. done.
  - rewrite elements_slash, Forall_app. done.
Qed.

End Index.

(** X18: where [Gen] looks for the index of a directory. Over a clean
    rooted root, for a settled name that resolves to a directory, [Gen]
    answers as it does for the name with the root before it and
    [/index.html] after it: the root is joined a second time, so that the
    index file is looked for below the root's own path below the root, not
    in the directory. *)
Theorem Gen_directory_index_below_the_root_twice {encoder : gzip.Encoder}
    (fuel : nat) (w : World) (a : AssetCache) (name : string) (fs : os.FileInfo) :
  path.rooted (Dir a) = true -> path.Clean (Dir a) = Dir a -> settled name ->
  Stat w (resolve a name) = inr fs -> os.IsDir fs = true ->
  Gen (S fuel) w a name = Gen fuel w a (Dir a ++ name ++ "/index.html").
Proof.
  intros Hroot Hclean (d & -> & Hd) Hs Hdir.
  rewrite (Gen_directory fuel w a _ fs Hs Hdir). apply Gen_resolve.
  unfold resolve. destruct (rooted_inv _ Hroot) as [D HD]. rewrite HD.
  apply (Clean_joined_twice D d "index.html"); [|exact Hd|repeat constructor; done].
  destruct (settled_Clean D) as (D' & HD' & Hdot).
  rewrite <- HD, Hclean, HD in HD'. by injection HD' as <-.
Qed.

Lemma Gen_directory_index_below_the_root_twice_witness :
  Gen (encoder := gzip.Store) 2 (on_disk nested_disk 100) (Site.cache "/srv/www" []) "/docs"
  = Gen (encoder := gzip.Store) 1 (on_disk nested_disk 100) (Site.cache "/srv/www" [])
      "/srv/www/docs/index.html" /\
  exists asset a',
    Gen (encoder := gzip.Store) 2 (on_disk nested_disk 100) (Site.cache "/srv/www" [])
      "/docs" = Some (inr asset, a') /\
    Content asset = bytes_of_string "<p>deep</p>".
Proof.
  split.
  - refine (Gen_directory_index_below_the_root_twice (encoder := gzip.Store)
              1 (on_disk nested_disk 100) (Site.cache "/srv/www" []) "/docs"
              {| os.IsDir := true; os.ModTime := 2 |} eq_refl eq_refl _ eq_refl eq_refl).
    exists "docs". split; [reflexivity|]. repeat constructor; done.
  - eexists _, _. split; by vm_compute.
Defined.

(* ===================================================================== *)
(** ** How often the root is joined                                       *)
(* ===================================================================== *)

Lemma string_app_assoc (s t u : string) : (s ++ t) ++ u = s ++ (t ++ u).
Proof.
  induction s as [|c s IH]; [done|].
  change (String c ((s ++ t) ++ u) = String c (s ++ (t ++ u))). by f_equal.
Qed.

(** Cleaning an inner rooted part first changes nothing when that part is
    settled: there is no [..] in it to climb out of it. *)
Lemma Clean_inner (P D d : string) :
  Forall (fun e => e <> "." /\ e <> "..") (path.elements D) ->
  Forall (fun e => e <> "." /\ e <> "..") (path.elements d) ->
  path.Clean (String slash P ++ path.Clean (String slash D ++ String slash d))
  = path.Clean (String slash P ++ String slash D ++ String slash d).
Proof.
  intros HD Hd.
  destruct (settled_Clean (D ++ String slash d)) as (j & Hj & Hjd).
  change (String slash D ++ String slash d) with (String slash (D ++ String slash d)).
  assert (kept (String slash j)
          = (kept (String slash D) ++ filter (fun e => e <> "") (path.elements d))%list)
    as Hkj.
  { rewrite <- Hj, kept_Clean. by apply kept_app. }
  rewrite Hj.
  change (String slash P ++ String slash j) with (String slash (P ++ String slash j)).
  change (String slash P ++ String slash (D ++ String slash d))
    with (String slash (P ++ String slash (D ++ String slash d))).
  rewrite !Clean_kept. do 2 f_equal.
  rewrite !kept_app.
  - rewrite elements_slash, filter_app.
    rewrite <- (kept_dotless j) by exact Hjd. rewrite Hkj.
    by rewrite <- (kept_dotless D) by exact HD.
  - rewrite elements_slash, Forall_app. done.
  - exact Hjd.
Qed.

Lemma clean_root_settled (a : AssetCache) :
  path.rooted (Dir a) = true -> path.Clean (Dir a) = Dir a ->
  exists D, Dir a = String slash D /\
            Forall (fun e => e <> "." /\ e <> "..") (path.elements D).
Proof.
  intros Hroot Hclean. destruct (rooted_inv _ Hroot) as [D HD].
  exists D. split; [exact HD|].
  destruct (settled_Clean D) as (D' & HD' & Hdot).
  rewrite <- HD, Hclean, HD in HD'. by injection HD' as <-.
Qed.

(** Resolving what was resolved is resolving with the root joined twice. *)
Lemma resolve_twice (a : AssetCache) (name : string) :
  path.rooted (Dir a) = true -> path.Clean (Dir a) = Dir a -> settled name ->
  resolve a (resolve a name) = resolve a (Dir a ++ name).
Proof.
  intros Hroot Hclean (d & -> & Hd).
  destruct (clean_root_settled a Hroot Hclean) as (D & HD & HDdot).
  unfold resolve. rewrite HD. by apply Clean_inner.
Qed.

(** And once more. *)
Lemma resolve_thrice (a : AssetCache) (name : string) :
  path.rooted (Dir a) = true -> path.Clean (Dir a) = Dir a -> settled name ->
  resolve a (resolve a (resolve a name)) = resolve a (Dir a ++ Dir a ++ name).
Proof.
  intros Hroot Hclean Hname.
  rewrite (resolve_twice a (resolve a name)) by (by try apply resolve_settled).
  destruct Hname as (d & -> & Hd).
  destruct (clean_root_settled a Hroot Hclean) as (D & HD & HDdot).
  unfold resolve. rewrite HD.
  change (String slash D ++ String slash D ++ ?x)
    with (String slash (D ++ String slash D ++ x)).
  rewrite <- !(string_app_assoc D (String slash D)).
  change (String slash ((D ++ String slash D) ++ ?x))
    with (String slash (D ++ String slash D) ++ x).
  by apply Clean_inner.
Qed.

(** X19: which file [Get] reads. Over a clean rooted root, for a settled
    name whose resolved path is a key of the cache, [Get] answers with
    what [Gen] gives for the name with the root before it: the asset and
    ok, or nil and not ok. The root is joined once by [Get] and again by
    [Gen], so the file read is not the one the key names, unless the root
    is [/]. *)
Theorem Get_reads_below_the_root_twice {encoder : gzip.Encoder}
    (fuel : nat) (w : World) (a : AssetCache) (name : string)
    (r : Res Asset) (a' : AssetCache) :
  path.rooted (Dir a) = true -> path.Clean (Dir a) = Dir a -> settled name ->
  is_Some (Cache a !! resolve a name) ->
  Gen fuel w a (Dir a ++ name) = Some (r, a') ->
  Get fuel w a name
  = Some (Returns (match r with
                   | inr asset => (Some asset, true)
                   | inl _ => (None, false)
                   end), a').
Proof.
  intros Hroot Hclean Hname [raw Hraw] HG. unfold Get. rewrite Hraw.
  rewrite (Gen_resolve fuel w a (resolve a name) (Dir a ++ name))
    by (by apply resolve_twice).
  rewrite HG. by destruct r.
Qed.

Lemma Get_reads_below_the_root_twice_witness :
  exists asset a',
    Get (encoder := gzip.Store) 1 (on_disk nested_disk 100)
      (Site.cache "/srv/www" [("/srv/www/a.txt", Site.entry 0)]) "/a.txt"
    = Some (Returns (Some asset, true), a') /\
    Content asset = bytes_of_string "deep text".
Proof.
  assert (exists asset a',
    Gen (encoder := gzip.Store) 1 (on_disk nested_disk 100)
      (Site.cache "/srv/www" [("/srv/www/a.txt", Site.entry 0)]) "/srv/www/a.txt"
    = Some (inr asset, a') /\ Content asset = bytes_of_string "deep text")
    as (asset & a' & HG & Hcontent).
  { eexists _, _. split; vm_compute; reflexivity. }
  exists asset, a'. split; [|exact Hcontent].
  refine (Get_reads_below_the_root_twice (encoder := gzip.Store) 1
            (on_disk nested_disk 100)
            (Site.cache "/srv/www" [("/srv/www/a.txt", Site.entry 0)]) "/a.txt"
            (inr asset) a' eq_refl eq_refl _ _ HG).
  - exists "a.txt". split; [reflexivity|]. repeat constructor; done.
  - eexists. vm_compute. reflexivity.
Defined.

(** X20: which file [Handler] serves. [Handler] resolves the request path
    and hands it to [Get], which resolves it again and looks it up; [Gen]
    resolves it a third time. Over a clean rooted root and for a settled
    request path: when the path with the root joined twice is no key of
    the cache, [Handler] panics; when it is one, [Handler] serves what
    [Gen] gives for the request path with the root twice before it, or
    answers not found, through the error handler of the context if there
    is one. *)
Theorem Handler_serves_below_the_root_thrice {encoder : gzip.Encoder}
    (fuel : nat) (w : World) (a : AssetCache) (c : Ctx) :
  path.rooted (Dir a) = true -> path.Clean (Dir a) = Dir a -> settled (URLPath c) ->
  (Cache a !! resolve a (Dir a ++ URLPath c) = None ->
   Handler fuel w a c = Some (Panics nil_assertion, a)) /\
  (is_Some (Cache a !! resolve a (Dir a ++ URLPath c)) ->
   forall r a', Gen fuel w a (Dir a ++ Dir a ++ URLPath c) = Some (r, a') ->
   Handler fuel w a c
   = Some (Returns (match r with
                    | inr asset => Serve asset c
                    | inl _ =>
                        match ErrorHandler c with
                        | Some handler => (c, handler ErrNotFound)
                        | None => (c, Some ErrNotFound)
                        end
                    end), a')).
Proof.
  intros Hroot Hclean Hurl.
  pose proof (resolve_twice a _ Hroot Hclean Hurl) as Hkey.
  pose proof (resolve_thrice a _ Hroot Hclean Hurl) as Hfile.
  unfold Handler, Get. rewrite Hkey. split.
  - by intros ->.
  - intros [raw ->] r a' HG.
    rewrite (Gen_resolve fuel w a _ (Dir a ++ Dir a ++ URLPath c))
      by (by rewrite <- Hkey).
    rewrite HG. destruct r; [|done]. by destruct (ErrorHandler c).
Qed.

Lemma Handler_serves_below_the_root_thrice_witness :
  exists c' a',
    Handler (encoder := gzip.Store) 1 (on_disk nested_disk 100)
      (Site.cache "/srv/www" [("/srv/www/srv/www/a.txt", Site.entry 0)])
      {| URLPath := "/a.txt"; request := []; response := []; body := [];
         ContentLength := 0; room := None; ErrorHandler := None |}
    = Some (Returns (c', None), a') /\
    body c' = bytes_of_string "deepest text" /\
    Handler (encoder := gzip.Store) 1 (on_disk nested_disk 100)
      (Site.cache "/srv/www" [("/srv/www/a.txt", Site.entry 0)])
      {| URLPath := "/a.txt"; request := []; response := []; body := [];
         ContentLength := 0; room := None; ErrorHandler := None |}
    = Some (Panics nil_assertion,
            Site.cache "/srv/www" [("/srv/www/a.txt", Site.entry 0)]).
Proof.
  assert (exists asset a',
    Gen (encoder := gzip.Store) 1 (on_disk nested_disk 100)
      (Site.cache "/srv/www" [("/srv/www/srv/www/a.txt", Site.entry 0)])
      "/srv/www/srv/www/a.txt"
    = Some (inr asset, a') /\
    snd (Serve asset
           {| URLPath := "/a.txt"; request := []; response := []; body := [];
              ContentLength := 0; room := None; ErrorHandler := None |}) = None /\
    body (fst (Serve asset
                 {| URLPath := "/a.txt"; request := []; response := []; body := [];
                    ContentLength := 0; room := None; ErrorHandler := None |}))
    = bytes_of_string "deepest text")
    as (asset & a' & HG & Hsnd & Hbody).
  { eexists _, _. split; [vm_compute; reflexivity|]. split; vm_compute; reflexivity. }
  assert (settled "/a.txt") as Hurl.
  { exists "a.txt". split; [reflexivity|]. repeat constructor; done. }
  exists (fst (Serve asset
                 {| URLPath := "/a.txt"; request := []; response := []; body := [];
                    ContentLength := 0; room := None; ErrorHandler := None |})), a'.
  split; [|split].
  - destruct (Handler_serves_below_the_root_thrice (encoder := gzip.Store) 1
                (on_disk nested_disk 100)
                (Site.cache "/srv/www" [("/srv/www/srv/www/a.txt", Site.entry 0)])
                {| URLPath := "/a.txt"; request := []; response := []; body := [];
                   ContentLength := 0; room := None; ErrorHandler := None |}
                eq_refl eq_refl Hurl) as [_ Hserve].
    rewrite (Hserve ltac:(eexists; vm_compute; reflexivity) (inr asset) a' HG).
    rewrite <- Hsnd. by rewrite <- surjective_pairing.
  - exact Hbody.
  - destruct (Handler_serves_below_the_root_thrice (encoder := gzip.Store) 1
                (on_disk nested_disk 100)
                (Site.cache "/srv/www" [("/srv/www/a.txt", Site.entry 0)])
                {| URLPath := "/a.txt"; request := []; response := []; body := [];
                   ContentLength := 0; room := None; ErrorHandler := None |}
                eq_refl eq_refl Hurl) as [Hpanic _].
    apply Hpanic. by vm_compute.
Defined.

(* ===================================================================== *)
(** ** Leaving the root                                                   *)
(* ===================================================================== *)

Section StayingUnder.

Context {encoder : gzip.Encoder}.



End StayingUnder.



